(** * Shallow embedding of [linguServer/api/utils/audio_processing.py]

    Samples are modelled as exact rationals [Q] (the Python code uses
    float32/float64 numpy arrays); sample counts, indices and rates are [Z].
    The file system is a [gmap] from paths to entries.  Library calls whose
    numerics are not part of this repository (librosa.load, noisereduce,
    librosa.resample, the ffmpeg binary, low-level I/O failures) are fields
    of an environment record [Env]; the pieces of librosa and soundfile whose
    control flow matters to the pipeline (effects.split, feature.rms, the
    format check of soundfile.write, subprocess.run's argument check) are
    written out. *)

From Stdlib Require Import QArith Qround Qminmax Qabs ZArith Ascii String List Bool Lia.
From Stdlib Require Import Sorting.Sorted FunctionalExtensionality.
From stdpp Require Import base gmap strings list pretty.
Import ListNotations.

Open Scope Z_scope.

(* ------------------------------------------------------------------ *)
(** ** Python string helpers (posixpath, str.lower) *)

Module PyStr.

(** Index of the last occurrence of [c] in [l], like [str.rfind]
    ([None] stands for [-1]). *)
Fixpoint rfind_go (c : ascii) (l : list ascii) (i : nat) (acc : option nat)
  : option nat :=
  match l with
  | [] => acc
  | x :: r => rfind_go c r (S i) (if Ascii.eqb x c then Some i else acc)
  end.

Definition rfind (c : ascii) (l : list ascii) : option nat := rfind_go c l 0 None.

Definition slash : ascii := "/"%char.
Definition dot : ascii := "."%char.

(** [posixpath.splitext] on a list of characters. *)
Definition splitext_l (l : list ascii) : list ascii * list ascii :=
  match rfind dot l with
  | None => (l, [])
  | Some d =>
      let filename_index := match rfind slash l with None => 0%nat | Some s => S s end in
      if (filename_index <=? d)%nat
      then
        if existsb (fun ch => negb (Ascii.eqb ch dot))
                   (firstn (d - filename_index) (skipn filename_index l))
        then (firstn d l, skipn d l)
        else (l, [])
      else (l, [])
  end.

Definition splitext (p : string) : string * string :=
  let '(a, b) := splitext_l (list_ascii_of_string p) in
  (string_of_list_ascii a, string_of_list_ascii b).

(** [str.lower] on the ASCII range (the comparison in [process_audio] is
    against ASCII literals only). *)
Definition lower_char (c : ascii) : ascii :=
  let n := nat_of_ascii c in
  if ((65 <=? n) && (n <=? 90))%nat then ascii_of_nat (n + 32) else c.

Fixpoint lower (s : string) : string :=
  match s with
  | EmptyString => EmptyString
  | String c r => String (lower_char c) (lower r)
  end.

Fixpoint upper (s : string) : string :=
  match s with
  | EmptyString => EmptyString
  | String c r =>
      let n := nat_of_ascii c in
      String (if ((97 <=? n) && (n <=? 122))%nat then ascii_of_nat (n - 32) else c)
             (upper r)
  end.

Fixpoint rstrip_slash_rev (l : list ascii) : list ascii :=
  match l with
  | c :: r => if Ascii.eqb c slash then rstrip_slash_rev r else l
  | [] => []
  end.

(** [posixpath.dirname]. *)
Definition dirname (p : string) : string :=
  let l := list_ascii_of_string p in
  let i := match rfind slash l with None => 0%nat | Some s => S s end in
  let head := firstn i l in
  if forallb (fun c => Ascii.eqb c slash) head
  then string_of_list_ascii head
  else string_of_list_ascii (rev (rstrip_slash_rev (rev head))).

(** The directories [os.makedirs] creates for [d], outermost first: every
    prefix of [d] ending just before a [/] (leading and repeated separators
    skipped), then [d] itself. *)
Fixpoint dir_prefixes_go (prev : list ascii) (l : list ascii) : list (list ascii) :=
  match l with
  | [] => []
  | c :: r =>
      if Ascii.eqb c slash then
        match List.rev prev with
        | [] => dir_prefixes_go (prev ++ [c]) r
        | x :: _ => if Ascii.eqb x slash
                    then dir_prefixes_go (prev ++ [c]) r
                    else prev :: dir_prefixes_go (prev ++ [c]) r
        end
      else dir_prefixes_go (prev ++ [c]) r
  end.

Definition dir_prefixes (d : string) : list string :=
  map string_of_list_ascii (dir_prefixes_go [] (list_ascii_of_string d)) ++ [d].

End PyStr.

(* ------------------------------------------------------------------ *)
(** ** Exceptions, files, and the error-and-state monad *)

Inductive exc :=
| ValueError (msg : string)
| CalledProcessError (returncode : Z) (stderr : string)
| FileNotFoundError (msg : string)
| FileExistsError (msg : string)
| IsADirectoryError (msg : string)
| TypeError (msg : string)
| ZeroDivisionError
| IndexError
| LibraryError (msg : string).

(** The sidecar JSON document. *)
Record metadata := {
  input_file : string;
  output_file : string;
  original_sr : Z;
  original_duration_sec : option Q;
  final_sr : Z;
  final_duration_sec : Q;
  processing_date_utc : string;
  processing_steps : list string
}.

Inductive fentry :=
| FDir
| FAudio (samples : list Q) (rate : Z) (subtype : string)
| FMeta (m : metadata)
| FData (tag : string).

Abbreviation fs := (gmap string fentry).

(** A computation that may raise, threading the file system. *)
Definition M (A : Type) : Type := fs -> (exc + A) * fs.

Definition retM {A} (x : A) : M A := fun s => (inr x, s).
Definition raise {A} (e : exc) : M A := fun s => (inl e, s).
Definition bindM {A B} (m : M A) (k : A -> M B) : M B :=
  fun s => match m s with
           | (inl e, s') => (inl e, s')
           | (inr x, s') => k x s'
           end.
(** [try: m except: h]. *)
Definition catchM {A} (m : M A) (h : exc -> M A) : M A :=
  fun s => match m s with
           | (inl e, s') => h e s'
           | r => r
           end.
Definition liftE {A} (r : exc + A) : M A := fun s => (r, s).
Definition modifyM (f : fs -> fs) : M unit := fun s => (inr tt, f s).
Definition getM : M fs := fun s => (inr s, s).

Notation "'let!' x := m 'in' k" := (bindM m (fun x => k))
  (at level 200, x name, m at level 100, k at level 200).
Notation "'do!' m 'in' k" := (bindM m (fun _ => k))
  (at level 200, m at level 100, k at level 200).

(* ------------------------------------------------------------------ *)
(** ** The environment: behaviour of external programs and libraries *)

(** Outcome of spawning a program (here: the [ffmpeg] binary). *)
Inductive exec_result :=
| ExecNotFound
| ExecExited (returncode : Z) (stderr : string) (after : fs).

Record Env := {
  (** spawning [args]; the program may change the file system *)
  exec : fs -> list string -> exec_result;
  (** [librosa.load(path, sr=None, mono=True)]: samples and native rate *)
  lib_load : fs -> string -> exc + (list Q * Z);
  (** [nr.reduce_noise(y=..., y_noise=..., sr=...)] *)
  reduce_noise : list Q -> list Q -> Z -> exc + list Q;
  (** [librosa.resample(y=..., orig_sr=..., target_sr=...)] *)
  resample : list Q -> Z -> Z -> exc + list Q;
  (** an I/O failure of [soundfile.write] past its argument checks; the
      boolean says whether a partial file is left at the path *)
  sf_io : string -> list Q -> Z -> option (exc * bool);
  (** [open(path, "w")] raising (permissions and the like) *)
  open_fails : string -> bool;
  abspath : string -> string;
  now_utc : string
}.

(* ------------------------------------------------------------------ *)
(** ** [subprocess.run] and [convert_to_wav] *)

Inductive pipe := PIPE.

(** The keyword arguments of [subprocess.run] that the code passes. *)
Record run_kwargs := {
  kw_check : bool;
  kw_capture_output : bool;
  kw_stdout : option pipe;
  kw_stderr : option pipe
}.

Definition capture_conflict_msg : string :=
  "stdout and stderr arguments may not be used with capture_output.".

(** CPython's [subprocess.run]: with [capture_output=True] it refuses an
    explicit [stdout] or [stderr] argument before spawning anything; with
    [check=True] a non-zero exit raises [CalledProcessError] carrying the
    captured stderr. *)
Definition subprocess_run (env : Env) (args : list string) (kw : run_kwargs) : M unit :=
  let explicit_streams :=
    match kw_stdout kw, kw_stderr kw with None, None => false | _, _ => true end in
  if kw_capture_output kw && explicit_streams
  then raise (ValueError capture_conflict_msg)
  else fun s =>
    match exec env s args with
    | ExecNotFound =>
        (inl (FileNotFoundError ("No such file or directory: '" ++ hd "" args ++ "'")%string), s)
    | ExecExited rc err s' =>
        let captured := kw_capture_output kw || match kw_stderr kw with Some _ => true | None => false end in
        if kw_check kw && negb (rc =? 0)
        then (inl (CalledProcessError rc (if captured then err else "")), s')
        else (inr tt, s')
    end.

Definition ffmpeg_args (input_path output_path : string) : list string :=
  ["ffmpeg"; "-i"; input_path; "-y"; "-acodec"; "pcm_s16le"; "-ar"; "44100";
   "-ac"; "1"; output_path].

(** [check=True, capture_output=True, stderr=subprocess.PIPE] *)
Definition convert_kwargs : run_kwargs :=
  {| kw_check := true; kw_capture_output := true; kw_stdout := None;
     kw_stderr := Some PIPE |}.

(** [f"{base_name}_converted.wav"] with [base_name = os.path.splitext(input_path)[0]]. *)
Definition converted_name (input_path : string) : string :=
  (fst (PyStr.splitext input_path) ++ "_converted.wav")%string.

(** [str(e)] of a [CalledProcessError]. *)
Definition called_process_error_str (rc : Z) : string :=
  ("Command 'ffmpeg' returned non-zero exit status " ++ pretty rc ++ ".")%string.

Definition convert_to_wav (env : Env) (input_path : string) (output_path : option string)
  : M string :=
  let out := match output_path with Some p => p | None => converted_name input_path end in
  catchM
    (do! subprocess_run env (ffmpeg_args input_path out) convert_kwargs in retM out)
    (fun e =>
       match e with
       | CalledProcessError rc err =>
           raise (ValueError ("Audio conversion failed: " ++
                   (if String.eqb err "" then called_process_error_str rc else err))%string)
       | FileNotFoundError _ =>
           raise (ValueError "ffmpeg is not installed. Please install ffmpeg to process audio files.")
       | e => raise e
       end).

(* ------------------------------------------------------------------ *)
(** ** Python/numpy numeric helpers *)

Open Scope Q_scope.

Definition Qltb (x y : Q) : bool := negb (Qle_bool y x).

(** [y[i:j]] on a sequence (negative indices count from the end, bounds are
    clamped). *)
Definition py_index (n i : Z) : Z :=
  if (i <? 0)%Z then Z.max 0 (i + n) else Z.min i n.

Definition py_slice {A} (y : list A) (i j : Z) : list A :=
  let n := Z.of_nat (length y) in
  let a := py_index n i in
  let b := py_index n j in
  firstn (Z.to_nat (b - a)) (skipn (Z.to_nat a) y).

(** [round(x)] on a float: round half to even. *)
Definition py_round (q : Q) : Z :=
  let f := Qfloor q in
  let d := q - inject_Z f in
  if Qltb d (1#2) then f
  else if Qltb (1#2) d then (f + 1)%Z
  else if Z.even f then f else (f + 1)%Z.

(** [int(x)] on a float: truncation toward zero. *)
Definition py_int (q : Q) : Z := Z.quot (Qnum q) (Zpos (Qden q)).

(** [np.max] of a non-empty array. *)
Definition list_max (l : list Q) : Q :=
  match l with [] => 0 | x :: r => fold_left Qmax r x end.

(** [int(np.argmin(a))]: first index of the minimum. *)
Fixpoint argmin_go (l : list Q) (i : nat) (best : Q) (bi : nat) : nat :=
  match l with
  | [] => bi
  | x :: r => if Qltb x best then argmin_go r (S i) x i else argmin_go r (S i) best bi
  end.

Definition argmin (l : list Q) : nat :=
  match l with [] => 0%nat | x :: r => argmin_go r 1 x 0 end.

(* ------------------------------------------------------------------ *)
(** ** librosa pieces: feature.rms and effects.split *)

Definition frame_length : nat := 2048.
Definition hop_length : Z := 512.

Definition mean_square (l : list Q) : Q :=
  fold_right Qplus' 0 (map (fun x => x * x) l) / inject_Z (Z.of_nat (length l)).

(** [librosa.feature.rms(y=y)[0]] squared: [center=True] pads
    [frame_length // 2] zeros on each side ([pad_mode="constant"]), frames
    of 2048 samples every 512.  The square root is left out: the code only
    takes [argmin] of the series and compares it with its maximum, both
    unchanged by a monotone map. *)
Definition rms_power (y : list Q) : list Q :=
  let p := repeat 0 1024 ++ y ++ repeat 0 1024 in
  let nframes := S ((length p - frame_length) / 512) in
  map (fun k => mean_square (firstn frame_length (skipn (512 * k) p))) (seq 0 nframes).

(** [amin ** 2] of [amplitude_to_db] ([amin = 1e-5]). *)
Definition amin_power : Q := 1 # 10000000000.

(** [10 ** (-top_db / 10)]; exact for multiples of 10 (the code uses 40). *)
Definition db_ratio (top_db : Z) : Q := 1 / inject_Z (10 ^ (top_db / 10)).

(** [librosa.effects._signal_to_frame_nonsilent] with [ref=np.max]: a frame
    is non-silent when its level in dB relative to the loudest frame is
    above [-top_db]. *)
Definition signal_to_frame_nonsilent (y : list Q) (top_db : Z) : list bool :=
  let mse := rms_power y in
  let ref := Qmax amin_power (list_max mse) in
  map (fun p => Qltb (ref * db_ratio top_db) (Qmax amin_power p)) mse.

(** [np.flatnonzero(np.diff(non_silent)) + 1] *)
Fixpoint flip_edges (i : Z) (prev : bool) (m : list bool) : list Z :=
  match m with
  | [] => []
  | b :: r => if Bool.eqb b prev then flip_edges (i + 1) b r
              else i :: flip_edges (i + 1) b r
  end.

(** The frame edges of [librosa.effects.split] ([non_silent[0]] raises
    [IndexError] on an empty mask). *)
Definition split_frames (m : list bool) : exc + list Z :=
  match m with
  | [] => inl IndexError
  | b0 :: r =>
      inr ((if b0 then [0%Z] else []) ++ flip_edges 1 b0 r ++
           (if List.last m false then [Z.of_nat (length m)] else []))
  end.

(** [edges.reshape((-1, 2))] *)
Fixpoint pairs (l : list Z) : exc + list (Z * Z) :=
  match l with
  | [] => inr []
  | [_] => inl (ValueError "cannot reshape array")
  | a :: b :: r => match pairs r with inl e => inl e | inr ps => inr ((a, b) :: ps) end
  end.

(** [librosa.effects.split(y, top_db=top_db)]: frame edges to samples
    ([frames_to_samples], hop 512), clipped to the signal length. *)
Definition librosa_split (y : list Q) (top_db : Z) : exc + list (Z * Z) :=
  match split_frames (signal_to_frame_nonsilent y top_db) with
  | inl e => inl e
  | inr edges => pairs (map (fun f => Z.min (f * hop_length) (Z.of_nat (length y))) edges)
  end.

(* ------------------------------------------------------------------ *)
(** ** The stages of [audio_processing.py] *)

(** The loop of [vad_with_librosa] over the split intervals. *)
Fixpoint vad_loop (sr : Z) (min_segment_duration : Q) (intervals : list (Z * Z))
  : list (Q * Q) :=
  match intervals with
  | [] => []
  | (start_i, end_i) :: r =>
      let duration_s := inject_Z (end_i - start_i) / inject_Z sr in
      if Qle_bool min_segment_duration duration_s
      then (inject_Z start_i / inject_Z sr, inject_Z end_i / inject_Z sr)
             :: vad_loop sr min_segment_duration r
      else vad_loop sr min_segment_duration r
  end.

Definition vad_with_librosa (y : list Q) (sr : Z) (top_db : Z) (min_segment_duration : Q)
  : exc + list (Q * Q) :=
  match librosa_split y top_db with
  | inl e => inl e
  | inr intervals => inr (vad_loop sr min_segment_duration intervals)
  end.

Definition concatenate_segments (y : list Q) (sr : Z) (segments : list (Q * Q)) : list Q :=
  match segments with
  | [] => []
  | _ =>
      let chunks :=
        map (fun '(start_s, end_s) =>
               let start_idx := py_round (start_s * inject_Z sr) in
               let end_idx := py_round (end_s * inject_Z sr) in
               py_slice y start_idx end_idx) segments in
      match chunks with
      | [] => []
      | _ => concat chunks
      end
  end.

Definition get_noise_profile (y : list Q) (sr : Z) (duration : Q) : list Q :=
  let n_samples := py_int (duration * inject_Z sr) in
  let len := Z.of_nat (length y) in
  if (n_samples <=? len)%Z && (0 <? n_samples)%Z then py_slice y 0 n_samples
  else
    let energy := rms_power y in
    match energy with
    | [] => y
    | _ =>
        let min_frame := Z.of_nat (argmin energy) in
        let start := Z.max 0 (min_frame * hop_length - n_samples / 2) in
        let end_ := Z.min len (start + Z.max n_samples 1) in
        py_slice y start end_
    end.

(** The fallback window as the specification words it, for comparison
    with [get_noise_profile]: the samples [i] with
    [c - duration*sr/2 <= i < c + duration*sr/2], [c] the first sample of
    the lowest-energy frame, clipped to the buffer. *)
Definition noise_profile_claimed (y : list Q) (sr : Z) (duration : Q) : list Q :=
  let n_samples := py_int (duration * inject_Z sr) in
  let len := Z.of_nat (length y) in
  if (n_samples <=? len)%Z && (0 <? n_samples)%Z then py_slice y 0 n_samples
  else
    match rms_power y with
    | [] => y
    | energy =>
        let centre := inject_Z (Z.of_nat (argmin energy) * hop_length) in
        let half := duration * inject_Z sr / 2 in
        py_slice y (Z.max 0 (Qceiling (centre - half)))
                 (Z.min len (Qceiling (centre + half)))
    end.

Definition normalize_peak (y : list Q) (target_peak : Q) : list Q :=
  match y with
  | [] => y
  | _ =>
      let peak := list_max (map Qabs y) in
      if Qeq_bool peak 0 then y
      else map (fun x => (x / peak) * target_peak) y
  end.

(* ------------------------------------------------------------------ *)
(** ** File-system operations *)

Definition path_exists (s : fs) (p : string) : bool :=
  match s !! p with Some _ => true | None => false end.

Fixpoint mkdirs_go (ds : list string) : M unit :=
  match ds with
  | [] => retM tt
  | d :: r => fun s =>
      match s !! d with
      | None => mkdirs_go r (<[d := FDir]> s)
      | Some FDir => mkdirs_go r s
      | Some _ => (inl (FileExistsError ("File exists: '" ++ d ++ "'")%string), s)
      end
  end.

(** [os.makedirs(d, exist_ok=True)]: [os.makedirs("")] raises. *)
Definition os_makedirs (d : string) : M unit :=
  if String.eqb d "" then raise (FileNotFoundError "No such file or directory: ''")
  else mkdirs_go (PyStr.dir_prefixes d).

Definition sf_formats : list string :=
  ["WAV"; "AIFF"; "AU"; "RAW"; "PAF"; "SVX"; "NIST"; "VOC"; "IRCAM"; "W64";
   "MAT4"; "MAT5"; "PVF"; "XI"; "HTK"; "SDS"; "AVR"; "WAVEX"; "SD2"; "FLAC";
   "CAF"; "WVE"; "OGG"; "MPC2K"; "RF64"; "MP3"].

(** [sf.write(path, data, rate, subtype="PCM_16")]: the format comes from
    the extension ([TypeError] when unknown), then the file is opened and
    written. *)
Definition sf_write (env : Env) (path : string) (data : list Q) (rate : Z) : M unit :=
  let format := match snd (PyStr.splitext path) with
                | String _ r => r | EmptyString => EmptyString end in
  if negb (existsb (String.eqb (PyStr.upper format)) sf_formats)
  then raise (TypeError ("No format specified and unable to get format from file extension: '"
                         ++ path ++ "'")%string)
  else fun s =>
    match s !! path with
    | Some FDir => (inl (LibraryError ("Error opening '" ++ path ++ "': Is a directory")%string), s)
    | _ =>
        match sf_io env path data rate with
        | None => (inr tt, <[path := FAudio data rate "PCM_16"]> s)
        | Some (e, partial) => (inl e, if partial then <[path := FData "partial"]> s else s)
        end
    end.

(** [with open(meta_path, "w") as f: json.dump(metadata, f)] inside
    [try: ... except Exception: pass]. *)
Definition write_metadata (env : Env) (meta_path : string) (m : metadata) : M unit :=
  catchM
    (fun s =>
       if open_fails env meta_path then (inl (LibraryError "open failed"), s)
       else match s !! meta_path with
            | Some FDir => (inl (IsADirectoryError meta_path), s)
            | _ => (inr tt, <[meta_path := FMeta m]> s)
            end)
    (fun _ => retM tt).

Definition os_remove (p : string) : M unit := fun s =>
  match s !! p with
  | None => (inl (FileNotFoundError p), s)
  | Some FDir => (inl (IsADirectoryError p), s)
  | Some _ => (inr tt, delete p s)
  end.

(** [if converted_path and os.path.exists(converted_path):
       try: os.remove(converted_path) except Exception: pass] *)
Definition cleanup_converted (converted_path : option string) : M unit :=
  match converted_path with
  | Some p =>
      if String.eqb p "" then retM tt
      else fun s => if path_exists s p then catchM (os_remove p) (fun _ => retM tt) s
                    else (inr tt, s)
  | None => retM tt
  end.

(* ------------------------------------------------------------------ *)
(** ** [process_audio] *)

Definition conversion_exts : list string := [".webm"; ".mp3"; ".m4a"; ".ogg"; ".flac"].

(** [os.path.splitext(input_path)[1].lower() in [...]] *)
Definition needs_conversion (input_path : string) : bool :=
  existsb (String.eqb (PyStr.lower (snd (PyStr.splitext input_path)))) conversion_exts.

(** The literal list written to the sidecar's [processing_steps]. *)
Definition processing_steps_list : list string :=
  ["VAD(librosa.effects.split)"; "NoiseReduction(noisereduce)";
   "Normalization(peak 0.95)"; "Resample(16kHz)"; "Save(16-bit PCM)"].

Definition meta_path_of (output_path : string) : string :=
  (fst (PyStr.splitext output_path) ++ "_metadata.json")%string.

(** [target_for_denoise = y_vad if y_vad.size > 0 else y] *)
Definition denoise_target (y y_vad : list Q) : list Q :=
  if (0 <? length y_vad)%nat then y_vad else y.

(** [try: nr.reduce_noise(...) except Exception: target_for_denoise] *)
Definition denoise (env : Env) (target noise_profile : list Q) (sr : Z) : list Q :=
  match reduce_noise env target noise_profile sr with
  | inl _ => target
  | inr r => r
  end.

(** Steps 4 and 6 of the docstring: resample unless the rate already matches. *)
Definition resample_step (env : Env) (y_normalized : list Q) (sr target_sr : Z)
  : M (list Q * Z) :=
  if negb (sr =? target_sr)%Z
  then let! y_resampled := liftE (resample env y_normalized sr target_sr) in
       retM (y_resampled, target_sr)
  else retM (y_normalized, sr).

(** The body of the [try] block from [librosa.load] to [return]. *)
Definition pipeline (env : Env) (input_path output_path : string) (target_sr : Z)
  (load_path : string) (converted_path : option string) : M (Q * Z) :=
  let! s := getM in
  let! loaded := liftE (lib_load env s load_path) in
  match loaded with
  | (y, sr) =>
    let! segments := liftE (vad_with_librosa y sr 40 (3#10)) in
    let y_vad := concatenate_segments y sr segments in
    let noise_profile := get_noise_profile y sr (1#2) in
    let target_for_denoise := denoise_target y y_vad in
    let y_denoised := denoise env target_for_denoise noise_profile sr in
    let y_normalized := normalize_peak y_denoised (95#100) in
    let! resampled := resample_step env y_normalized sr target_sr in
    match resampled with
    | (y_resampled, final_sr0) =>
      do! os_makedirs (PyStr.dirname output_path) in
      do! sf_write env output_path y_resampled final_sr0 in
      let! duration :=
        (if (final_sr0 =? 0)%Z then raise ZeroDivisionError
         else retM (inject_Z (Z.of_nat (length y_resampled)) / inject_Z final_sr0)) in
      let md := {| input_file := abspath env input_path;
                   output_file := abspath env output_path;
                   original_sr := sr;
                   original_duration_sec :=
                     if (sr =? 0)%Z then None
                     else Some (inject_Z (Z.of_nat (length y)) / inject_Z sr);
                   final_sr := final_sr0;
                   final_duration_sec := duration;
                   processing_date_utc := now_utc env;
                   processing_steps := processing_steps_list |} in
      do! write_metadata env (meta_path_of output_path) md in
      do! cleanup_converted converted_path in
      retM (duration, final_sr0)
    end
  end.

(** [process_audio(input_path, output_path, target_sr)].  [converted_path]
    is [None] until [convert_to_wav] returns, so an exception raised by the
    conversion reaches the [except] block with [converted_path = None]. *)
Definition process_audio (env : Env) (input_path output_path : string) (target_sr : Z)
  : M (Q * Z) :=
  let conv := needs_conversion input_path in
  fun s0 =>
    match (if conv then convert_to_wav env input_path None else retM input_path) s0 with
    | (inl e, s1) => (do! cleanup_converted None in raise e) s1
    | (inr load_path, s1) =>
        let converted_path := if conv then Some load_path else None in
        catchM (pipeline env input_path output_path target_sr load_path converted_path)
               (fun e => do! cleanup_converted converted_path in raise e) s1
    end.

(* ------------------------------------------------------------------ *)
(** ** A concrete environment for running the model *)

(** A host where [rec.wav] holds four samples at 16 kHz, ffmpeg exits
    with status 1, noisereduce raises, resampling returns its input and all
    I/O succeeds. *)
Definition demo_samples : list Q := [1#2; -(1#4); 3#4; -(1#8)].

Definition demo_env : Env := {|
  exec := fun s _ => ExecExited 1 "Invalid data found when processing input" s;
  lib_load := fun s p => match s !! p with
                         | Some (FAudio y r _) => inr (y, r)
                         | _ => inl (LibraryError "No such file")
                         end;
  reduce_noise := fun _ _ _ => inl (LibraryError "spectral gating failed");
  resample := fun y _ _ => inr y;
  sf_io := fun _ _ _ => None;
  open_fails := fun _ => false;
  abspath := fun p => ("/srv/" ++ p)%string;
  now_utc := "2025-01-01T00:00:00+00:00"
|}.

Definition demo_fs : fs := {[ "rec.wav" := FAudio demo_samples 16000 "PCM_16" ]}.

(* ------------------------------------------------------------------ *)
(** ** Notions used by the statements below *)

(** Each interval is ordered and ends no later than every later interval
    starts: the list is in start order and no two intervals overlap. *)
Fixpoint chain {A} (R : A -> A -> Prop) (l : list (A * A)) : Prop :=
  match l with
  | [] => True
  | (s, e) :: r => R s e /\ Forall (fun p => R e (fst p)) r /\ chain R r
  end.

Definition to_seconds (sr : Z) (iv : Z * Z) : Q * Q :=
  (inject_Z (fst iv) / inject_Z sr, inject_Z (snd iv) / inject_Z sr).

Definition long_enough (sr : Z) (min_segment_duration : Q) (iv : Z * Z) : bool :=
  Qle_bool min_segment_duration (inject_Z (snd iv - fst iv) / inject_Z sr).

(** Eight samples at level 0.5. *)
Definition demo_vad_input : list Q := repeat (1#2) 8.

(** A silent clip of 5000 samples at 16 kHz, shorter than the 0.5 s
    (8000-sample) window. *)
Definition quiet_clip : list Q := repeat 0 5000.

(** Two seconds of silence around 2048 samples at level 0.5, at 1 kHz. *)
Definition speech_clip : list Q := repeat 0 2048 ++ repeat (1#2) 2048 ++ repeat 0 2048.

Definition speech_fs : fs := {[ "talk.wav" := FAudio speech_clip 1000 "PCM_16" ]}.

(** [rec.wav] next to a decoded file [rec_converted.wav] left by an
    earlier run. *)
Definition stale_fs : fs :=
  <[ "rec_converted.wav" := FAudio demo_samples 16000 "PCM_16" ]> demo_fs.

(** Every path whose entry differs between [s] and [s'] is [o] or is a
    directory in [s']. *)
Definition changed_only_at (o : string) (s s' : fs) : Prop :=
  forall p, s' !! p <> s !! p -> p = o \/ s' !! p = Some FDir.

(** Decidable equality of file entries, for case analysis on lookups. *)
#[local] Instance Q_eq_dec : EqDecision Q.
Proof. intros [a b] [c d]. unfold Decision. decide equality; apply decide; apply _. Defined.

#[local] Instance metadata_eq_dec : EqDecision metadata.
Proof. intros [] []. unfold Decision. repeat decide equality; apply decide; apply _. Defined.

#[local] Instance fentry_eq_dec : EqDecision fentry.
Proof. intros x y. unfold Decision. repeat decide equality; apply decide; apply _. Defined.

(** [demo_env] on a host whose disk fills while [sf.write] writes: the
    write raises and leaves a truncated file at its path. *)
Definition full_disk_env : Env := {|
  exec := exec demo_env;
  lib_load := lib_load demo_env;
  reduce_noise := reduce_noise demo_env;
  resample := resample demo_env;
  sf_io := fun _ _ _ => Some (LibraryError "No space left on device", true);
  open_fails := open_fails demo_env;
  abspath := abspath demo_env;
  now_utc := now_utc demo_env
|}.

(** Every sidecar document present in [s'] was already in [s] or lists the
    fixed [processing_steps]. *)
Definition meta_only_fixed (s s' : fs) : Prop :=
  forall p m, s' !! p = Some (FMeta m) ->
    s !! p = Some (FMeta m) \/ processing_steps m = processing_steps_list.

(** [env] with [nr.reduce_noise] replaced by the identity. *)
Definition with_passthrough_denoiser (env : Env) : Env := {|
  exec := exec env;
  lib_load := lib_load env;
  reduce_noise := fun y _ _ => inr y;
  resample := resample env;
  sf_io := sf_io env;
  open_fails := open_fails env;
  abspath := abspath env;
  now_utc := now_utc env
|}.

(** [env] on a host where spawning a program behaves as [ex]. *)
Definition with_exec (env : Env) (ex : fs -> list string -> exec_result) : Env := {|
  exec := ex;
  lib_load := lib_load env;
  reduce_noise := reduce_noise env;
  resample := resample env;
  sf_io := sf_io env;
  open_fails := open_fails env;
  abspath := abspath env;
  now_utc := now_utc env
|}.

(** [True]/[False] as the integers 1/0. *)
Definition b2n (b : bool) : nat := if b then 1%nat else 0%nat.

(* ------------------------------------------------------------------ *)
(** ** The caller: [RecordingViewSet.create] and [audio] in [views.py] *)

Module PyPath.

Definition ends_slash (a : string) : bool :=
  match rev (list_ascii_of_string a) with
  | c :: _ => Ascii.eqb c PyStr.slash
  | [] => false
  end.

(** One step of [posixpath.join]: an absolute component replaces the
    path; otherwise it is appended, with a [/] unless the path is empty or
    already ends with one. *)
Definition join2 (path b : string) : string :=
  let starts_sep := match b with
                    | String c _ => Ascii.eqb c PyStr.slash
                    | EmptyString => false
                    end in
  if starts_sep then b
  else if String.eqb path "" || ends_slash path then (path ++ b)%string
  else (path ++ "/" ++ b)%string.

(** [os.path.join(a, *p)] *)
Definition join (a : string) (p : list string) : string := fold_left join2 p a.

(** [os.path.basename(p)] *)
Definition basename (p : string) : string :=
  let l := list_ascii_of_string p in
  let i := match PyStr.rfind PyStr.slash l with None => 0%nat | Some s => S s end in
  string_of_list_ascii (skipn i l).

Fixpoint prefixb (p l : list ascii) : bool :=
  match p, l with
  | [], _ => true
  | c :: p', d :: l' => Ascii.eqb c d && prefixb p' l'
  | _ :: _, [] => false
  end.

(** [s.endswith(suffix)] *)
Definition endswith (s suffix : string) : bool :=
  prefixb (rev (list_ascii_of_string suffix)) (rev (list_ascii_of_string s)).

End PyPath.

(** The uploaded file: its client-side name and the bytes its chunks
    carry (an entry of the file system once written). *)
Record uploaded_file := {
  uf_name : string;
  uf_content : fentry
}.

(** The [Recording] row that [create] inserts. *)
Record recording := {
  recording_id : string;
  contributor : string;
  raw_rec_link : string;
  clean_rec_link : string;
  ogk_transcription : string;
  eng_transcription : string;
  rec_theme : string;
  rec_duration : Q
}.

(** [with open(path, 'wb') as f: for chunk in ...: f.write(chunk)]:
    opening a directory raises, other open failures come from [env]. *)
Definition open_write (env : Env) (path : string) (content : fentry) : M unit :=
  fun s =>
    if open_fails env path then (inl (LibraryError "open failed"), s)
    else match s !! path with
         | Some FDir => (inl (IsADirectoryError path), s)
         | _ => (inr tt, <[path := content]> s)
         end.

(** [os.path.splitext(raw_recording_file.name)[1] or '.wav'] *)
Definition file_extension_of (name : string) : string :=
  match snd (PyStr.splitext name) with
  | EmptyString => ".wav"
  | e => e
  end.

Definition raw_dir_of (media_root : string) : string :=
  PyPath.join media_root ["recordings"; "raw"].

Definition clean_dir_of (media_root : string) : string :=
  PyPath.join media_root ["recordings"; "clean"].

Definition raw_filename_of (recording_id name : string) : string :=
  (recording_id ++ "_raw" ++ file_extension_of name)%string.

Definition clean_filename_of (recording_id : string) : string :=
  (recording_id ++ "_clean.wav")%string.

Definition raw_file_path_of (media_root recording_id name : string) : string :=
  PyPath.join (raw_dir_of media_root) [raw_filename_of recording_id name].

Definition clean_file_path_of (media_root recording_id : string) : string :=
  PyPath.join (clean_dir_of media_root) [clean_filename_of recording_id].

(** Lines 92-102 of [create]: both directories, then the raw upload;
    returns [raw_file_path]. *)
Definition save_raw (env : Env) (media_root recording_id : string)
  (raw_recording_file : uploaded_file) : M string :=
  let raw_dir := raw_dir_of media_root in
  let clean_dir := clean_dir_of media_root in
  do! os_makedirs raw_dir in
  do! os_makedirs clean_dir in
  let raw_file_path := raw_file_path_of media_root recording_id (uf_name raw_recording_file) in
  do! open_write env raw_file_path (uf_content raw_recording_file) in
  retM raw_file_path.

(** [validated_data.get(key, '')] *)
Definition get_or_empty (v : option string) : string :=
  match v with Some x => x | None => "" end.

(** [RecordingViewSet.create] after validation ([contributor_id] exists:
    [RecordingUploadSerializer.validate_contributor_id] checked it);
    [recording_id] is [str(uuid.uuid4())] and [media_root] is
    [settings.MEDIA_ROOT]. *)
Definition create (env : Env) (media_root recording_id contributor_id : string)
  (raw_recording_file : uploaded_file)
  (ogk_transcription eng_transcription rec_theme : option string) : M recording :=
  let! raw_file_path := save_raw env media_root recording_id raw_recording_file in
  let clean_file_path := clean_file_path_of media_root recording_id in
  let! r := process_audio env raw_file_path clean_file_path 16000 in
  match r with
  | (duration, sample_rate) =>
      let raw_rel_path :=
        ("recordings/raw/" ++ raw_filename_of recording_id (uf_name raw_recording_file))%string in
      let clean_rel_path := ("recordings/clean/" ++ clean_filename_of recording_id)%string in
      retM {| recording_id := recording_id;
              contributor := contributor_id;
              raw_rec_link := raw_rel_path;
              clean_rec_link := clean_rel_path;
              ogk_transcription := get_or_empty ogk_transcription;
              eng_transcription := get_or_empty eng_transcription;
              rec_theme := get_or_empty rec_theme;
              rec_duration := duration |}
  end.

Inductive http_error :=
| Http404 (msg : string)
| ServerError (e : exc).

Record file_response := {
  resp_path : string;
  resp_content : fentry;
  resp_content_type : string;
  resp_filename : string
}.

(** [RecordingViewSet.audio]: read-only, so a function of the file system. *)
Definition audio (media_root : string) (instance : recording) (audio_type : string) (s : fs)
  : http_error + file_response :=
  let file_path := if String.eqb audio_type "clean" then clean_rec_link instance
                   else raw_rec_link instance in
  if String.eqb file_path "" then inl (Http404 "Audio file not found")
  else
    let full_path := PyPath.join media_root [file_path] in
    match s !! full_path with
    | None => inl (Http404 "Audio file not found")
    | Some FDir => inl (ServerError (IsADirectoryError full_path))
    | Some c =>
        inr {| resp_path := full_path;
               resp_content := c;
               resp_content_type :=
                 if PyPath.endswith file_path ".wav" then "audio/wav" else "audio/webm";
               resp_filename := PyPath.basename file_path |}
    end.

(** A small upload for running [create] and [audio]. *)
Definition demo_upload : uploaded_file :=
  {| uf_name := "clip.wav"; uf_content := FAudio demo_samples 16000 "PCM_16" |}.

Definition demo_id : string := "0b6e2f4c-2d5e-4f55-9a57-3d1b6b1e8c11".

(** A browser recording, uploaded as WebM. *)
Definition demo_webm_upload : uploaded_file :=
  {| uf_name := "recording.webm"; uf_content := FData "webm" |}.

(* ================================================================== *)
(** * Properties *)

(** ** Running the monad *)

Lemma bindM_inr {A B} (m : M A) (k : A -> M B) s x s1 :
  m s = (inr x, s1) -> bindM m k s = k x s1.
Proof. unfold bindM; intros ->; reflexivity. Qed.

Lemma bindM_inl {A B} (m : M A) (k : A -> M B) s e s1 :
  m s = (inl e, s1) -> bindM m k s = (inl e, s1).
Proof. unfold bindM; intros ->; reflexivity. Qed.

(** Splits a hypothesis [bindM m k s = r] on the outcome of [m]. *)
Ltac split_bind H :=
  match type of H with
  | bindM ?m ?k ?s = _ =>
      let r := fresh "r" in let s1 := fresh "s" in let Hm := fresh "Hm" in
      destruct (m s) as [r s1] eqn:Hm;
      destruct r as [?e | ?x];
      [rewrite (bindM_inl m k s _ _ Hm) in H
      |rewrite (bindM_inr m k s _ _ Hm) in H]
  end.

(** ** Conversion *)

(** [subprocess.run] rejects the keyword arguments of [convert_to_wav]
    before spawning ffmpeg, and [convert_to_wav] re-raises that error. *)
Lemma convert_to_wav_raises env input_path s :
  convert_to_wav env input_path None s = (inl (ValueError capture_conflict_msg), s).
Proof. reflexivity. Qed.

Lemma process_audio_conversion_fails env input_path output_path target_sr s :
  needs_conversion input_path = true ->
  process_audio env input_path output_path target_sr s
  = (inl (ValueError capture_conflict_msg), s).
Proof.
  intros Hc. unfold process_audio. rewrite Hc, convert_to_wav_raises. reflexivity.
Qed.

(** ** Resampling keeps the rate at [target_sr] *)

Lemma resample_step_rate env y sr target_sr s y' fr s' :
  resample_step env y sr target_sr s = (inr (y', fr), s') -> fr = target_sr.
Proof.
  unfold resample_step, liftE.
  destruct (sr =? target_sr)%Z eqn:E; simpl.
  - intros H; inversion H; subst. apply Z.eqb_eq; exact E.
  - unfold bindM. destruct (resample env y sr target_sr); simpl;
      intros H; inversion H; reflexivity.
Qed.

(** Runs a hypothesis [comp s = (r, s')] through the binds of [comp]. *)
Ltac run_M H :=
  repeat first
    [ progress (cbn beta iota zeta in H)
    | discriminate H
    | match type of H with
      | bindM _ _ _ = _ => split_bind H
      | context [match ?x with pair _ _ => _ end] => is_var x; destruct x
      end ].

Lemma pipeline_rate env i o target_sr lp cp s d fr s' :
  pipeline env i o target_sr lp cp s = (inr (d, fr), s') -> fr = target_sr.
Proof.
  unfold pipeline. intros H. run_M H.
  unfold retM in H. injection H as <- <- <-.
  eapply resample_step_rate; eassumption.
Qed.

(** ** Claim C1 *)

(** C1 (code_bug).  The claim: a conversion input whose decode fails raises
    an error carrying ffmpeg's diagnostic text.  In the code, every input
    with a conversion extension raises [ValueError("stdout and stderr
    arguments may not be used with capture_output.")] from
    [subprocess.run]'s argument check, before ffmpeg runs, whatever ffmpeg
    would have done; the file system is untouched. *)
Theorem C1_mp3_raises_capture_conflict :
  forall (env : Env) (s : fs) (output_path : string) (target_sr : Z),
    process_audio env "uploads/rec.mp3" output_path target_sr s
    = (inl (ValueError capture_conflict_msg), s).
Proof.
  intros. apply process_audio_conversion_fails. reflexivity.
Qed.

(** ** Claim C2 *)

(** C2: whenever [process_audio] returns [(duration, final_sr)],
    [final_sr] is the [target_sr] argument, in the branch that resamples
    and in the branch where the native rate already equals it. *)
Theorem C2_final_rate_is_target :
  forall (env : Env) (s s' : fs) (input_path output_path : string)
         (target_sr : Z) (duration : Q) (fr : Z),
    process_audio env input_path output_path target_sr s = (inr (duration, fr), s') ->
    fr = target_sr.
Proof.
  intros env s s' i o t d fr. unfold process_audio.
  destruct (needs_conversion i).
  - rewrite convert_to_wav_raises. cbn. discriminate.
  - cbn. unfold catchM.
    destruct (pipeline env i o t i None s) as [[e | [d' fr']] s1] eqn:Hp.
    + unfold bindM, cleanup_converted, retM, raise. discriminate.
    + intros H. injection H as <- <- <-. eapply pipeline_rate; eassumption.
Qed.

Lemma C2_final_rate_is_target_witness :
  process_audio demo_env "rec.wav" "out/clean.wav" 16000 demo_fs
  = (inr (4 # 16000, 16000%Z), snd (process_audio demo_env "rec.wav" "out/clean.wav" 16000 demo_fs))
  /\ 16000%Z = 16000%Z.
Proof.
  split.
  - vm_compute. reflexivity.
  - exact (C2_final_rate_is_target demo_env demo_fs
             (snd (process_audio demo_env "rec.wav" "out/clean.wav" 16000 demo_fs))
             "rec.wav" "out/clean.wav" 16000 (4 # 16000) 16000
             (ltac:(vm_compute; reflexivity))).
Defined.

(** ** Segment lists *)

Lemma vad_loop_map_filter sr min_d ivs :
  vad_loop sr min_d ivs = map (to_seconds sr) (List.filter (long_enough sr min_d) ivs).
Proof.
  induction ivs as [|[a b] r IH]; simpl; [reflexivity|].
  destruct (long_enough sr min_d (a, b)) eqn:E;
    unfold long_enough in E; simpl in E; rewrite E; simpl; rewrite IH; reflexivity.
Qed.

Lemma chain_filter {A} (R : A -> A -> Prop) (f : A * A -> bool) l :
  chain R l -> chain R (List.filter f l).
Proof.
  induction l as [|[a b] r IH]; simpl; [auto|].
  intros (Hab & Hf & Hc). destruct (f (a, b)); simpl; [|auto].
  repeat split; auto.
  apply List.Forall_forall. intros x Hx. apply filter_In in Hx as [Hx _].
  rewrite List.Forall_forall in Hf. apply Hf, Hx.
Qed.

Lemma chain_map {A B} (R : A -> A -> Prop) (R' : B -> B -> Prop) (g : A * A -> B * B) l :
  (forall p, R (fst p) (snd p) -> R' (fst (g p)) (snd (g p))) ->
  (forall p q, R (snd p) (fst q) -> R' (snd (g p)) (fst (g q))) ->
  chain R l -> chain R' (map g l).
Proof.
  intros Hin Hbetween.
  induction l as [|[a b] r IH]; simpl; [auto|].
  intros (Hab & Hf & Hc).
  destruct (g (a, b)) as [ga gb] eqn:Hg.
  split; [|split].
  - pose proof (Hin (a, b) Hab) as H. rewrite Hg in H. exact H.
  - apply List.Forall_map. eapply List.Forall_impl; [|exact Hf]. intros q Hq.
    pose proof (Hbetween (a, b) q Hq) as H. rewrite Hg in H. exact H.
  - apply IH; exact Hc.
Qed.

(** ** Frame edges of [librosa.effects.split] are sorted *)

Lemma flip_edges_bounds m : forall i prev e,
  In e (flip_edges i prev m) -> (i <= e < i + Z.of_nat (length m))%Z.
Proof.
  induction m as [|b r IH]; simpl; intros i prev e H; [contradiction|].
  destruct (Bool.eqb b prev); simpl in H.
  - apply IH in H. lia.
  - destruct H as [<- | H]; [lia|]. apply IH in H. lia.
Qed.

Lemma flip_edges_sorted m : forall i prev, StronglySorted Z.le (flip_edges i prev m).
Proof.
  induction m as [|b r IH]; simpl; intros i prev; [constructor|].
  destruct (Bool.eqb b prev); [apply IH|].
  constructor; [apply IH|].
  apply List.Forall_forall. intros e He. apply flip_edges_bounds in He. lia.
Qed.

Lemma StronglySorted_app {A} (R : A -> A -> Prop) l1 l2 :
  StronglySorted R l1 -> StronglySorted R l2 ->
  (forall x y, In x l1 -> In y l2 -> R x y) -> StronglySorted R (l1 ++ l2).
Proof.
  induction l1 as [|a r IH]; simpl; intros H1 H2 Hx; [exact H2|].
  inversion H1 as [|? ? Hr Ha]; subst.
  constructor.
  - apply IH; auto.
  - apply List.Forall_app; split; [exact Ha|].
    apply List.Forall_forall. intros y Hy. apply Hx; auto.
Qed.

Lemma StronglySorted_map {A B} (R : A -> A -> Prop) (R' : B -> B -> Prop) (f : A -> B) l :
  (forall x y, R x y -> R' (f x) (f y)) ->
  StronglySorted R l -> StronglySorted R' (map f l).
Proof.
  intros Hf. induction 1 as [|a r Hr IH Ha]; simpl; constructor; [exact IH|].
  apply List.Forall_map. eapply List.Forall_impl; [|exact Ha]. intros; apply Hf; assumption.
Qed.

Lemma split_frames_sorted m es :
  split_frames m = inr es -> StronglySorted Z.le es.
Proof.
  destruct m as [|b0 r]; [discriminate|].
  unfold split_frames. intros H; injection H as <-.
  match goal with |- context [if ?c then [Z.of_nat _] else []] =>
    destruct c eqn:Hlst end.
  all: apply StronglySorted_app;
    [ destruct b0; repeat constructor
    | apply StronglySorted_app; [apply flip_edges_sorted | repeat constructor |]
    | ].
  all: intros x y Hx Hy.
  all: repeat match goal with
         | H : In _ (_ ++ _) |- _ => apply in_app_or in H as [H | H]
         | H : In _ [] |- _ => contradiction H
         | H : In _ [_] |- _ => destruct H as [<- | []]
         | H : In _ (if ?b then _ else _) |- _ => destruct b; simpl in H
         | H : In _ (flip_edges _ _ _) |- _ => apply flip_edges_bounds in H
         end.
  all: simpl length in *; lia.
Qed.

Lemma pairs_chain_gen n : forall l ps,
  (length l <= n)%nat -> StronglySorted Z.le l -> pairs l = inr ps ->
  chain Z.le ps /\ (forall a b, In (a, b) ps -> In a l).
Proof.
  induction n as [|n IH]; intros l ps Hlen Hs Hp.
  - destruct l; simpl in *; [|lia]. injection Hp as <-. simpl; split; auto.
  - destruct l as [|a [|b r]]; simpl in Hp.
    + injection Hp as <-. simpl; split; auto.
    + discriminate.
    + destruct (pairs r) as [e|ps'] eqn:Hr; [discriminate|].
      injection Hp as <-.
      inversion Hs as [|? ? Hs1 Ha]; subst.
      inversion Hs1 as [|? ? Hs2 Hb]; subst.
      destruct (IH r ps') as [Hc Hin]; [simpl in Hlen; lia|exact Hs2|exact Hr|].
      split.
      * simpl. split; [inversion Ha; assumption|]. split; [|exact Hc].
        apply List.Forall_forall. intros [x y] Hxy. simpl.
        apply Hin in Hxy. rewrite List.Forall_forall in Hb. apply Hb, Hxy.
      * intros x y [Hxy | Hxy]; [injection Hxy as -> ->; simpl; auto|].
        apply Hin in Hxy. simpl; auto.
Qed.

Lemma librosa_split_chain y top_db ivs :
  librosa_split y top_db = inr ivs -> chain Z.le ivs.
Proof.
  unfold librosa_split.
  destruct (split_frames (signal_to_frame_nonsilent y top_db)) as [e|es] eqn:Hs;
    [discriminate|].
  intros Hp.
  apply split_frames_sorted in Hs.
  refine (proj1 (pairs_chain_gen _ _ ivs (le_n _) _ Hp)).
  apply (StronglySorted_map Z.le Z.le); [|exact Hs].
  intros x y0 Hxy. unfold hop_length. lia.
Qed.

Lemma div_rate_mono sr a b :
  (0 < sr)%Z -> (a <= b)%Z -> inject_Z a / inject_Z sr <= inject_Z b / inject_Z sr.
Proof.
  intros Hsr Hab. unfold Qdiv. apply Qmult_le_compat_r.
  - rewrite <- Zle_Qle. exact Hab.
  - apply Qinv_le_0_compat. change 0 with (inject_Z 0). rewrite <- Zle_Qle. lia.
Qed.

(** ** Rounding back to sample indices *)

Lemma Qfloor_of_int q z : q == inject_Z z -> Qfloor q = z.
Proof.
  intros Hq.
  pose proof (Qfloor_le q) as H1. pose proof (Qlt_floor q) as H2.
  set (f := Qfloor q) in *. clearbody f.
  setoid_rewrite Hq in H1. setoid_rewrite Hq in H2.
  rewrite <- Zle_Qle in H1. rewrite <- Zlt_Qlt in H2. lia.
Qed.

Lemma py_round_of_int q z : q == inject_Z z -> py_round q = z.
Proof.
  intros Hq. unfold py_round. rewrite (Qfloor_of_int q z Hq).
  assert (Hd : q - inject_Z z == 0) by (setoid_rewrite Hq; ring).
  unfold Qltb.
  destruct (Qle_bool (1 # 2) (q - inject_Z z)) eqn:E.
  - apply Qle_bool_iff in E. setoid_rewrite Hd in E. exfalso; apply E; reflexivity.
  - reflexivity.
Qed.

(** [int(round((i / sr) * sr)) = i]. *)
Lemma seconds_roundtrip sr i :
  (0 < sr)%Z -> py_round (inject_Z i / inject_Z sr * inject_Z sr) = i.
Proof.
  intros Hsr. apply py_round_of_int. field.
  intros H. unfold Qeq in H. simpl in H. lia.
Qed.

Lemma slices_of_seconds (y : list Q) (sr : Z) (l : list (Z * Z)) :
  (0 < sr)%Z ->
  map (fun '(start_s, end_s) =>
         py_slice y (py_round (start_s * inject_Z sr)) (py_round (end_s * inject_Z sr)))
      (map (to_seconds sr) l)
  = map (fun iv => py_slice y (fst iv) (snd iv)) l.
Proof.
  intros Hsr. induction l as [|[a b] r IH]; simpl; [reflexivity|].
  rewrite IH, !seconds_roundtrip by exact Hsr. reflexivity.
Qed.

Lemma vad_with_librosa_eq y sr top_db min_d :
  vad_with_librosa y sr top_db min_d
  = match librosa_split y top_db with
    | inl e => inl e
    | inr intervals => inr (vad_loop sr min_d intervals)
    end.
Proof. reflexivity. Qed.

(** ** Claim C6 *)

(** C6: for [sr > 0], the VAD returns exactly the split intervals whose
    duration [(end_i - start_i) / sr] is at least [min_segment_duration]
    (the others are dropped), in the order of the split, each converted to
    seconds as [index / sr]; and the result is in start order with no two
    segments overlapping (each segment ends no later than every later one
    starts). *)
Theorem C6_vad_filters_and_orders :
  forall (y : list Q) (sr top_db : Z) (min_segment_duration : Q)
         (segments : list (Q * Q)),
    (0 < sr)%Z ->
    vad_with_librosa y sr top_db min_segment_duration = inr segments ->
    exists intervals : list (Z * Z),
      librosa_split y top_db = inr intervals /\
      segments = map (to_seconds sr)
                   (List.filter (long_enough sr min_segment_duration) intervals) /\
      chain Qle segments.
Proof.
  intros y sr top_db min_d segs Hsr Hv.
  rewrite vad_with_librosa_eq in Hv.
  destruct (librosa_split y top_db) as [e|ivs] eqn:Hs; [discriminate|].
  injection Hv as <-.
  exists ivs. split; [reflexivity|]. rewrite vad_loop_map_filter. split; [reflexivity|].
  apply (chain_map Z.le Qle).
  - intros [a b]; simpl. apply div_rate_mono; exact Hsr.
  - intros [a b] [c d]; simpl. apply div_rate_mono; exact Hsr.
  - apply chain_filter. eapply librosa_split_chain; exact Hs.
Qed.

Lemma C6_vad_filters_and_orders_witness :
  (0 < 16)%Z /\
  exists segments,
    vad_with_librosa demo_vad_input 16 40 (3#10) = inr segments /\ segments <> [] /\
    exists intervals : list (Z * Z),
      librosa_split demo_vad_input 40 = inr intervals /\
      segments = map (to_seconds 16) (List.filter (long_enough 16 (3#10)) intervals) /\
      chain Qle segments.
Proof.
  split; [lia|].
  exists (to_seconds 16 (0, 8)%Z :: []).
  assert (Hv : vad_with_librosa demo_vad_input 16 40 (3#10) = inr [to_seconds 16 (0, 8)%Z])
    by (vm_compute; reflexivity).
  split; [exact Hv|]. split; [discriminate|].
  exact (C6_vad_filters_and_orders demo_vad_input 16 40 (3#10) _ ltac:(lia) Hv).
Defined.

(** ** Claim C10 *)

(** C10: for [sr > 0], mapping each VAD segment back with
    [int(round(s * sr))] recovers the integer bounds of the kept split
    intervals exactly, so [concatenate_segments] on the VAD output is the
    in-order concatenation of the slices [y[start_i:end_i]] of those
    intervals (the empty list giving the empty buffer). *)
Theorem C10_stitch_roundtrip :
  forall (y : list Q) (sr top_db : Z) (min_segment_duration : Q)
         (segments : list (Q * Q)),
    (0 < sr)%Z ->
    vad_with_librosa y sr top_db min_segment_duration = inr segments ->
    exists intervals : list (Z * Z),
      librosa_split y top_db = inr intervals /\
      map (fun seg => (py_round (fst seg * inject_Z sr), py_round (snd seg * inject_Z sr)))
          segments
        = List.filter (long_enough sr min_segment_duration) intervals /\
      concatenate_segments y sr segments
        = concat (map (fun iv => py_slice y (fst iv) (snd iv))
                      (List.filter (long_enough sr min_segment_duration) intervals)).
Proof.
  intros y sr top_db min_d segs Hsr Hv.
  rewrite vad_with_librosa_eq in Hv.
  destruct (librosa_split y top_db) as [e|ivs] eqn:Hs; [discriminate|].
  injection Hv as <-.
  exists ivs. split; [reflexivity|]. rewrite vad_loop_map_filter.
  set (kept := List.filter (long_enough sr min_d) ivs).
  split.
  - clearbody kept. induction kept as [|[a b] r IH]; simpl; [reflexivity|].
    rewrite IH, !seconds_roundtrip by exact Hsr. reflexivity.
  - unfold concatenate_segments.
    pose proof (slices_of_seconds y sr kept Hsr) as Hsl.
    clearbody kept. destruct kept as [|iv r]; [reflexivity|].
    simpl map in Hsl |- *. cbn zeta. rewrite Hsl. reflexivity.
Qed.

Lemma C10_stitch_roundtrip_witness :
  (0 < 16)%Z /\
  exists segments,
    vad_with_librosa demo_vad_input 16 40 (3#10) = inr segments /\
    concatenate_segments demo_vad_input 16 segments = demo_vad_input /\
    exists intervals : list (Z * Z),
      librosa_split demo_vad_input 40 = inr intervals /\
      map (fun seg => (py_round (fst seg * inject_Z 16), py_round (snd seg * inject_Z 16)))
          segments = List.filter (long_enough 16 (3#10)) intervals /\
      concatenate_segments demo_vad_input 16 segments
        = concat (map (fun iv => py_slice demo_vad_input (fst iv) (snd iv))
                      (List.filter (long_enough 16 (3#10)) intervals)).
Proof.
  split; [lia|].
  exists [to_seconds 16 (0, 8)%Z].
  assert (Hv : vad_with_librosa demo_vad_input 16 40 (3#10) = inr [to_seconds 16 (0, 8)%Z])
    by (vm_compute; reflexivity).
  split; [exact Hv|]. split; [vm_compute; reflexivity|].
  exact (C10_stitch_roundtrip demo_vad_input 16 40 (3#10) _ ltac:(lia) Hv).
Defined.

(** ** Noise profile *)

Lemma rms_power_cons y : exists p r, rms_power y = p :: r.
Proof. unfold rms_power. cbv zeta. eexists _, _. reflexivity. Qed.

Lemma py_slice_prefix {A} (y : list A) n :
  (0 <= n <= Z.of_nat (length y))%Z -> py_slice y 0 n = firstn (Z.to_nat n) y.
Proof.
  intros Hn. unfold py_slice, py_index. cbv zeta.
  destruct (n <? 0)%Z eqn:E; [apply Z.ltb_lt in E; lia|].
  replace (0 <? 0)%Z with false by reflexivity.
  rewrite Z.min_l by lia. rewrite Z.min_l by lia.
  rewrite Z.sub_0_r. reflexivity.
Qed.

Lemma py_slice_to_end {A} (y : list A) a :
  (0 <= a)%Z -> py_slice y a (Z.of_nat (length y)) = skipn (Z.to_nat a) y.
Proof.
  intros Ha. unfold py_slice, py_index. cbv zeta.
  destruct (a <? 0)%Z eqn:E; [apply Z.ltb_lt in E; lia|].
  destruct (Z.of_nat (length y) <? 0)%Z eqn:E2; [apply Z.ltb_lt in E2; lia|].
  rewrite Z.min_id.
  destruct (Z.le_gt_cases a (Z.of_nat (length y))) as [Hle|Hgt].
  - rewrite Z.min_l by lia. apply List.firstn_all2. rewrite List.length_skipn. lia.
  - rewrite Z.min_r by lia. rewrite Z.sub_diag. change (Z.to_nat 0) with 0%nat.
    rewrite List.firstn_O. symmetry. apply List.skipn_all2. lia.
Qed.

Lemma py_index_clamp n b :
  (0 <= n)%Z -> (0 <= b)%Z -> py_index n (Z.min n b) = py_index n b.
Proof.
  intros Hn Hb. unfold py_index.
  destruct (Z.min n b <? 0)%Z eqn:E1; [apply Z.ltb_lt in E1; lia|].
  destruct (b <? 0)%Z eqn:E2; [apply Z.ltb_lt in E2; lia|].
  lia.
Qed.

(** ** Claim C7 *)

(** C7 counterexample: on [quiet_clip] at 16 kHz every frame has the
    lowest energy, the first one wins ([argmin = 0]), and the code returns
    all 5000 samples, while the 0.5 s window centred on sample 0 and
    clipped to the buffer holds 4000. *)
Lemma C7_noise_window_counterexample :
  length (get_noise_profile quiet_clip 16000 (1#2)) = 5000%nat /\
  length (noise_profile_claimed quiet_clip 16000 (1#2)) = 4000%nat /\
  get_noise_profile quiet_clip 16000 (1#2) <> noise_profile_claimed quiet_clip 16000 (1#2).
Proof.
  assert (H1 : length (get_noise_profile quiet_clip 16000 (1#2)) = 5000%nat)
    by (vm_compute; reflexivity).
  assert (H2 : length (noise_profile_claimed quiet_clip 16000 (1#2)) = 4000%nat)
    by (vm_compute; reflexivity).
  split; [exact H1|]. split; [exact H2|].
  intros He. rewrite He in H1. rewrite H1 in H2. discriminate H2.
Qed.

(** C7 (amended): for [sr > 0], with [n = int(0.5 * sr)] and
    [start = max(0, 512 * argmin(rms) - n // 2)], [get_noise_profile] is
    total and the energy series is never empty; it returns the first [n]
    samples when [0 < n <= len(y)]; when the buffer is shorter than [n] it
    returns [y[start:]], the window starting half a window before the
    quietest frame and running to the end of the buffer (not centred, and
    the whole buffer when the quietest frame is near the start); when
    [n = 0] it returns the single sample [y[start:start+1]]. *)
Theorem C7_noise_profile_window :
  forall (y : list Q) (sr : Z),
    (0 < sr)%Z ->
    let n := py_int ((1#2) * inject_Z sr) in
    let start := Z.max 0 (Z.of_nat (argmin (rms_power y)) * hop_length - n / 2) in
    rms_power y <> [] /\
    ((0 < n)%Z -> (n <= Z.of_nat (length y))%Z ->
       get_noise_profile y sr (1#2) = firstn (Z.to_nat n) y) /\
    ((Z.of_nat (length y) < n)%Z ->
       get_noise_profile y sr (1#2) = skipn (Z.to_nat start) y) /\
    (n = 0%Z -> get_noise_profile y sr (1#2) = py_slice y start (start + 1)).
Proof.
  intros y sr Hsr. cbv zeta. unfold get_noise_profile.
  assert (Hn : (0 <= py_int ((1#2) * inject_Z sr))%Z)
    by (unfold py_int; simpl; apply Z.quot_pos; lia).
  set (n := py_int ((1#2) * inject_Z sr)) in *.
  destruct (rms_power_cons y) as (p & r & He).
  rewrite He. cbv beta iota zeta.
  split; [discriminate|].
  set (st := Z.max 0 (Z.of_nat (argmin (p :: r)) * hop_length - n / 2)).
  assert (Hst : (0 <= st)%Z) by (unfold st; lia).
  split; [|split].
  - intros H0 Hle.
    replace ((n <=? Z.of_nat (length y))%Z && (0 <? n)%Z) with true
      by (symmetry; apply andb_true_iff; split; [apply Z.leb_le|apply Z.ltb_lt]; lia).
    apply py_slice_prefix; lia.
  - intros Hlt.
    replace ((n <=? Z.of_nat (length y))%Z && (0 <? n)%Z) with false
      by (symmetry; apply andb_false_iff; left; apply Z.leb_gt; lia).
    rewrite Z.min_l by lia. apply py_slice_to_end; exact Hst.
  - intros Hz.
    replace ((n <=? Z.of_nat (length y))%Z && (0 <? n)%Z) with false
      by (symmetry; apply andb_false_iff; right; apply Z.ltb_ge; lia).
    rewrite Hz. change (Z.max 0 1) with 1%Z.
    unfold py_slice. cbv zeta. rewrite py_index_clamp by lia. reflexivity.
Qed.

Lemma C7_noise_profile_window_witness :
  (0 < 16000)%Z /\ get_noise_profile quiet_clip 16000 (1#2) = quiet_clip.
Proof.
  split; [lia|].
  destruct (C7_noise_profile_window quiet_clip 16000 ltac:(lia)) as (_ & _ & Htail & _).
  rewrite Htail by (vm_compute; reflexivity). vm_compute. reflexivity.
Defined.

(** ** Paths: the sidecar path is never the output path *)

Lemma rfind_go_spec c l : forall i acc k,
  PyStr.rfind_go c l i acc = Some k ->
  acc = Some k \/ (i <= k /\ nth_error l (k - i) = Some c)%nat.
Proof.
  induction l as [|x r IH]; intros i acc k H; simpl in H; [left; exact H|].
  destruct (IH _ _ _ H) as [Ha | [Hle Hn]].
  - destruct (Ascii.eqb x c) eqn:E; [|left; exact Ha].
    injection Ha as <-. right. apply Ascii.eqb_eq in E. subst.
    rewrite Nat.sub_diag. split; [lia|reflexivity].
  - right. split; [lia|].
    replace (k - i)%nat with (S (k - S i)) by lia. exact Hn.
Qed.

Lemma skipn_nth_error {A} (l : list A) : forall d x,
  nth_error l d = Some x -> skipn d l = x :: skipn (S d) l.
Proof.
  induction l as [|a r IH]; intros [|d] x H; simpl in H; try discriminate.
  - injection H as <-. reflexivity.
  - simpl. apply IH. exact H.
Qed.

Lemma splitext_l_parts l :
  fst (PyStr.splitext_l l) ++ snd (PyStr.splitext_l l) = l /\
  (snd (PyStr.splitext_l l) = [] \/ exists r, snd (PyStr.splitext_l l) = PyStr.dot :: r).
Proof.
  unfold PyStr.splitext_l.
  destruct (PyStr.rfind PyStr.dot l) as [d|] eqn:Ed;
    [|simpl; split; [apply app_nil_r | left; reflexivity]].
  cbv zeta.
  assert (Hd : nth_error l d = Some PyStr.dot).
  { unfold PyStr.rfind in Ed. destruct (rfind_go_spec _ _ _ _ _ Ed) as [H | [_ H]];
      [discriminate H | rewrite Nat.sub_0_r in H; exact H]. }
  destruct (_ <=? d)%nat; [destruct existsb|];
    simpl; (split; [try apply app_nil_r | try (left; reflexivity)]).
  - apply List.firstn_skipn.
  - right. eexists. apply skipn_nth_error. exact Hd.
Qed.

Lemma list_ascii_of_string_app s1 s2 :
  list_ascii_of_string (s1 ++ s2) = list_ascii_of_string s1 ++ list_ascii_of_string s2.
Proof. induction s1 as [|c r IH]; simpl; [reflexivity|]. rewrite IH. reflexivity. Qed.

Lemma meta_path_of_neq o : meta_path_of o <> o.
Proof.
  unfold meta_path_of, PyStr.splitext. intros H.
  pose proof (splitext_l_parts (list_ascii_of_string o)) as [Happ Hdot].
  destruct (PyStr.splitext_l (list_ascii_of_string o)) as [a b]. simpl in *.
  apply (f_equal list_ascii_of_string) in H.
  rewrite list_ascii_of_string_app, list_ascii_of_string_of_list_ascii in H.
  rewrite <- Happ in H. apply List.app_inv_head in H.
  destruct Hdot as [-> | [r ->]]; discriminate H.
Qed.

(** ** Claim C9 *)

(** C9 counterexample: the decode target of [convert_to_wav] is computed
    from the input path alone, so two invocations on [uploads/rec.mp3]
    (and even one on [uploads/rec.webm]) all use the single name
    [uploads/rec_converted.wav]. *)
Lemma C9_shared_temp_name_counterexample :
  converted_name "uploads/rec.mp3" = converted_name "uploads/rec.mp3" /\
  converted_name "uploads/rec.mp3" = "uploads/rec_converted.wav" /\
  converted_name "uploads/rec.webm" = "uploads/rec_converted.wav".
Proof. split; [reflexivity|]. split; vm_compute; reflexivity. Qed.

(** C9 (amended): the temporary decode name is
    [os.path.splitext(input_path)[0] + "_converted.wav"], a function of the
    input path alone with no per-call identifier.  Two invocations use the
    same temporary path exactly when their inputs have the same base name
    (the path without its extension); so two invocations on the same input
    path always share it. *)
Theorem C9_temp_name_from_input_path :
  forall (i1 i2 : string),
    converted_name i1 = converted_name i2 <->
    fst (PyStr.splitext i1) = fst (PyStr.splitext i2).
Proof.
  intros i1 i2. unfold converted_name. split.
  - intros H. apply (f_equal list_ascii_of_string) in H.
    rewrite !list_ascii_of_string_app in H. apply List.app_inv_tail in H.
    rewrite <- (string_of_list_ascii_of_string (fst (PyStr.splitext i1))), H.
    apply string_of_list_ascii_of_string.
  - intros ->. reflexivity.
Qed.

Lemma C9_temp_name_from_input_path_witness :
  fst (PyStr.splitext "uploads/a.ogg") = fst (PyStr.splitext "uploads/a.flac") /\
  converted_name "uploads/a.ogg" = converted_name "uploads/a.flac".
Proof.
  assert (Hb : fst (PyStr.splitext "uploads/a.ogg") = fst (PyStr.splitext "uploads/a.flac"))
    by (vm_compute; reflexivity).
  split; [exact Hb|].
  exact (proj2 (C9_temp_name_from_input_path "uploads/a.ogg" "uploads/a.flac") Hb).
Defined.

(** ** Single steps of a run *)

Lemma getM_inv s r s' : getM s = (r, s') -> r = inr s /\ s' = s.
Proof. unfold getM. intros H. inversion H. auto. Qed.

Lemma liftE_inv {A} (r : exc + A) s r' s' : liftE r s = (r', s') -> r' = r /\ s' = s.
Proof. unfold liftE. intros H. inversion H. auto. Qed.

Lemma retM_inv {A} (x : A) s r s' : retM x s = (r, s') -> r = inr x /\ s' = s.
Proof. unfold retM. intros H. inversion H. auto. Qed.

Lemma if_raise_ret_state {A} (c : bool) e (x : A) s r s' :
  (if c then raise e else retM x) s = (r, s') -> s' = s.
Proof. destruct c; unfold raise, retM; intros H; inversion H; reflexivity. Qed.

Lemma cleanup_None s r s' : cleanup_converted None s = (r, s') -> s' = s.
Proof. unfold cleanup_converted, retM. intros H. inversion H. reflexivity. Qed.

Lemma resample_step_inv env y sr t s y' fr s' :
  resample_step env y sr t s = (inr (y', fr), s') ->
  s' = s /\ fr = t /\ (if (sr =? t)%Z then y' = y else resample env y sr t = inr y').
Proof.
  unfold resample_step, liftE, bindM, retM.
  destruct (sr =? t)%Z eqn:E; simpl.
  - intros H; inversion H; subst. apply Z.eqb_eq in E. auto.
  - destruct (resample env y sr t) eqn:Er; simpl; intros H; inversion H; subst; auto.
Qed.

Lemma resample_step_state env y sr t s r s' :
  resample_step env y sr t s = (r, s') -> s' = s.
Proof.
  unfold resample_step, liftE, bindM, retM.
  destruct (sr =? t)%Z; simpl; [intros H; inversion H; reflexivity|].
  destruct (resample env y sr t); simpl; intros H; inversion H; reflexivity.
Qed.

Lemma sf_write_inr env p d r s u s' :
  sf_write env p d r s = (inr u, s') -> s' = <[p := FAudio d r "PCM_16"]> s.
Proof.
  unfold sf_write, raise.
  destruct (negb _); [discriminate|].
  intros H. destruct (s !! p) as [f|]; [destruct f|]; try discriminate H;
    destruct (sf_io env p d r) as [[e b]|]; inversion H; reflexivity.
Qed.

Lemma write_metadata_other env mp md s r s' p :
  p <> mp -> write_metadata env mp md s = (r, s') -> s' !! p = s !! p.
Proof.
  intros Hne. unfold write_metadata, catchM, retM.
  destruct (open_fails env mp); [intros H; inversion H; reflexivity|].
  destruct (s !! mp) as [f|]; [destruct f|]; intros H; inversion H; subst;
    try reflexivity; apply lookup_insert_ne; congruence.
Qed.

(** Turns the state-only steps of a run into equations. *)
Ltac step_inv :=
  repeat match goal with
  | H : getM _ = (inl _, _) |- _ => unfold getM in H; discriminate H
  | H : retM _ _ = (inl _, _) |- _ => unfold retM in H; discriminate H
  | H : cleanup_converted None _ = (inl _, _) |- _ =>
      unfold cleanup_converted, retM in H; discriminate H
  | H : getM _ = (_, _) |- _ =>
      let Hr := fresh "Hr" in apply getM_inv in H as [Hr H];
      injection Hr as Hr; subst
  | H : liftE _ _ = (_, _) |- _ =>
      let Hr := fresh "Hr" in apply liftE_inv in H as [Hr H]; subst
  | H : retM _ _ = (_, _) |- _ =>
      let Hr := fresh "Hr" in apply retM_inv in H as [Hr H];
      injection Hr as Hr; subst
  | H : (if _ then raise _ else retM _) _ = (_, _) |- _ =>
      apply if_raise_ret_state in H; subst
  | H : cleanup_converted None _ = (_, _) |- _ => apply cleanup_None in H; subst
  | H : resample_step _ _ _ _ _ = (inl _, _) |- _ => apply resample_step_state in H; subst
  end.

(** ** Claim C5 *)

(** C5: take an input that needs no conversion, loaded as the buffer [y]
    at rate [sr], on which the VAD returns [segments].  The denoise
    stage's input [target] is the stitched buffer when it is non-empty and
    [y] otherwise.  If spectral gating raises on [target], the stage yields
    [target] unchanged, and the run goes on: [process_audio] gives the same
    result and the same file system as with a denoiser that returns its
    input.  When that run succeeds, the file written at [output_path] is
    [target] peak-normalised to 0.95, resampled to [target_sr] when [sr]
    differs from it. *)
Theorem C5_denoise_fallback_passes_input :
  forall (env : Env) (s : fs) (input_path output_path : string) (target_sr : Z)
         (y : list Q) (sr : Z) (segments : list (Q * Q)) (e : exc),
    needs_conversion input_path = false ->
    lib_load env s input_path = inr (y, sr) ->
    vad_with_librosa y sr 40 (3#10) = inr segments ->
    let y_vad := concatenate_segments y sr segments in
    let target := if (0 <? length y_vad)%nat then y_vad else y in
    let noise_profile := get_noise_profile y sr (1#2) in
    reduce_noise env target noise_profile sr = inl e ->
    denoise env target noise_profile sr = target /\
    process_audio env input_path output_path target_sr s
      = process_audio (with_passthrough_denoiser env) input_path output_path target_sr s /\
    (forall duration fr s',
       process_audio env input_path output_path target_sr s = (inr (duration, fr), s') ->
       exists y_out,
         s' !! output_path = Some (FAudio y_out target_sr "PCM_16") /\
         (if (sr =? target_sr)%Z then y_out = normalize_peak target (95#100)
          else resample env (normalize_peak target (95#100)) sr target_sr = inr y_out)).
Proof.
  intros env s i o t y sr segs e Hnc Hload Hvad y_vad target np Hrn.
  assert (Hd : denoise env target np sr = target) by (unfold denoise; rewrite Hrn; reflexivity).
  assert (Hp : pipeline env i o t i None s
               = pipeline (with_passthrough_denoiser env) i o t i None s).
  { unfold pipeline, bindM, getM, liftE. cbn [lib_load with_passthrough_denoiser].
    rewrite Hload, Hvad. unfold denoise_target. fold y_vad target np.
    rewrite Hd. unfold denoise. cbn [reduce_noise with_passthrough_denoiser].
    reflexivity. }
  split; [exact Hd|]. split.
  - unfold process_audio. rewrite Hnc. cbn [retM]. unfold catchM. rewrite Hp. reflexivity.
  - intros d fr s' Hrun. revert Hrun. unfold process_audio. rewrite Hnc. cbn. unfold catchM.
    destruct (pipeline env i o t i None s) as [[e'|[d' fr']] s1] eqn:Hpl.
    { unfold bindM, cleanup_converted, retM, raise. discriminate. }
    intros Hr. injection Hr as <- <- <-.
    unfold pipeline in Hpl. run_M Hpl. step_inv.
    match goal with
    | H : inr _ = lib_load _ _ _ |- _ => rewrite Hload in H; injection H as <- <-
    end.
    match goal with
    | H : inr _ = vad_with_librosa _ _ _ _ |- _ => rewrite Hvad in H; injection H as <-
    end.
    match goal with
    | H : resample_step _ _ _ _ _ = _ |- _ =>
        unfold denoise_target in H; fold y_vad target np in H;
        rewrite Hd in H; apply resample_step_inv in H as (-> & -> & Hy)
    end.
    match goal with
    | H : sf_write _ _ _ _ _ = _ |- _ => apply sf_write_inr in H; subst
    end.
    match goal with
    | H : write_metadata _ _ _ _ = _ |- _ =>
        rewrite (write_metadata_other _ _ _ _ _ _ o (not_eq_sym (meta_path_of_neq o)) H)
    end.
    eexists. rewrite lookup_insert_eq. split; [reflexivity|]. exact Hy.
Qed.

Lemma C5_denoise_fallback_passes_input_witness :
  let y_vad := concatenate_segments speech_clip 1000 [(1536 # 1000, 5120 # 1000)] in
  y_vad <> speech_clip /\
  denoise demo_env y_vad (get_noise_profile speech_clip 1000 (1#2)) 1000 = y_vad /\
  process_audio demo_env "talk.wav" "out/talk_clean.wav" 16000 speech_fs
    = process_audio (with_passthrough_denoiser demo_env) "talk.wav" "out/talk_clean.wav"
        16000 speech_fs.
Proof.
  intros y_vad.
  assert (Hv : vad_with_librosa speech_clip 1000 40 (3#10) = inr [(1536 # 1000, 5120 # 1000)])
    by (vm_compute; reflexivity).
  destruct (C5_denoise_fallback_passes_input demo_env speech_fs "talk.wav" "out/talk_clean.wav"
              16000 speech_clip 1000 _ (LibraryError "spectral gating failed")
              eq_refl eq_refl Hv eq_refl) as (Hd & Hpa & _).
  split; [intros H; apply (f_equal (@length Q)) in H; vm_compute in H; discriminate H|].
  split; [exact Hd|exact Hpa].
Defined.

(** ** What a failed run leaves behind *)

Lemma changed_refl o s : changed_only_at o s s.
Proof. intros p H. congruence. Qed.

Lemma changed_trans o s1 s2 s3 :
  changed_only_at o s1 s2 -> changed_only_at o s2 s3 -> changed_only_at o s1 s3.
Proof.
  intros H12 H23 p Hne.
  destruct (decide (s3 !! p = s2 !! p)) as [Heq|Hne'].
  - rewrite Heq in Hne |- *. apply H12. exact Hne.
  - apply H23. exact Hne'.
Qed.

Lemma changed_insert_dir o d s : changed_only_at o s (<[d := FDir]> s).
Proof.
  intros p Hne. right. destruct (decide (d = p)) as [<-|Hdp].
  - apply lookup_insert_eq.
  - rewrite lookup_insert_ne in Hne by exact Hdp. congruence.
Qed.

Lemma changed_insert_at o f s : changed_only_at o s (<[o := f]> s).
Proof.
  intros p Hne. left. destruct (decide (o = p)) as [<-|Hop]; [reflexivity|].
  rewrite lookup_insert_ne in Hne by exact Hop. congruence.
Qed.

Lemma mkdirs_go_changed o ds : forall s r s',
  mkdirs_go ds s = (r, s') -> changed_only_at o s s'.
Proof.
  induction ds as [|d ds IH]; intros s r s' H; simpl in H.
  - unfold retM in H. inversion H. apply changed_refl.
  - destruct (s !! d) as [f|] eqn:Ed; [destruct f|].
    + apply IH in H. exact H.
    + inversion H. apply changed_refl.
    + inversion H. apply changed_refl.
    + inversion H. apply changed_refl.
    + eapply changed_trans; [apply changed_insert_dir|]. eapply IH. exact H.
Qed.

Lemma os_makedirs_changed o d s r s' :
  os_makedirs d s = (r, s') -> changed_only_at o s s'.
Proof.
  unfold os_makedirs, raise. destruct (String.eqb d "").
  - intros H. inversion H. apply changed_refl.
  - apply mkdirs_go_changed.
Qed.

Lemma sf_write_changed env o d rt s r s' :
  sf_write env o d rt s = (r, s') -> changed_only_at o s s'.
Proof.
  unfold sf_write, raise.
  destruct (negb _); [intros H; inversion H; apply changed_refl|].
  intros H. destruct (s !! o) as [f|]; [destruct f|];
    try (inversion H; apply changed_refl);
    destruct (sf_io env o d rt) as [[e [|]]|]; inversion H;
    first [apply changed_refl | apply changed_insert_at].
Qed.

Lemma write_metadata_not_inl env mp md s e s' :
  write_metadata env mp md s = (inl e, s') -> False.
Proof.
  unfold write_metadata, catchM, retM.
  destruct (open_fails env mp); [discriminate|].
  destruct (s !! mp) as [f|]; [destruct f|]; discriminate.
Qed.

Lemma pipeline_fail_changed env i o t lp s e s' :
  pipeline env i o t lp None s = (inl e, s') -> changed_only_at o s s'.
Proof.
  unfold pipeline. intros H. run_M H; step_inv;
  repeat match goal with
  | H : write_metadata _ _ _ _ = (inl _, _) |- _ =>
      exfalso; exact (write_metadata_not_inl _ _ _ _ _ _ H)
  | H : (inl _, _) = (inl _, _) |- _ => injection H as <- <-
  | H : resample_step _ _ _ _ _ = _ |- _ => apply resample_step_state in H; subst
  | H : os_makedirs _ _ = _ |- _ => apply (os_makedirs_changed o) in H
  | H : sf_write _ o _ _ _ = _ |- _ => apply sf_write_changed in H
  end;
  first [ apply changed_refl | assumption | eapply changed_trans; eassumption ].
Qed.

Lemma converted_name_nonempty i : String.eqb (converted_name i) "" = false.
Proof. unfold converted_name. destruct (fst (PyStr.splitext i)); reflexivity. Qed.

Lemma cleanup_some_gone cp s r s' :
  String.eqb cp "" = false ->
  cleanup_converted (Some cp) s = (r, s') -> s' !! cp = None \/ s' !! cp = Some FDir.
Proof.
  intros Hne. unfold cleanup_converted. rewrite Hne. unfold path_exists, catchM, os_remove, retM.
  destruct (s !! cp) as [f|] eqn:E; [destruct f|]; intros H; inversion H; subst;
    rewrite ?lookup_delete_eq; auto.
Qed.


(** ** Claim C8 *)

(** C8 counterexample: the run on [rec.wav] raises, and it leaves behind
    the directory [processed], created by [os.makedirs], and a truncated
    file at the output path [processed/clean.wav]. Neither existed
    before. *)
Lemma C8_failed_run_leaves_artifacts_counterexample :
  fst (process_audio full_disk_env "rec.wav" "processed/clean.wav" 16000 demo_fs)
    = inl (LibraryError "No space left on device") /\
  demo_fs !! "processed" = None /\
  snd (process_audio full_disk_env "rec.wav" "processed/clean.wav" 16000 demo_fs)
    !! "processed" = Some FDir /\
  demo_fs !! "processed/clean.wav" = None /\
  snd (process_audio full_disk_env "rec.wav" "processed/clean.wav" 16000 demo_fs)
    !! "processed/clean.wav" = Some (FData "partial").
Proof. repeat split; vm_compute; reflexivity. Qed.

(** C8 (amended): the cleanup in [process_audio] only handles the
    converted file, and ignores errors while removing it.  Once the
    conversion step has returned its temporary path, every exit of the
    [try] block, by return or by exception, leaves no file there: it is
    removed, unless a directory occupies that path.  A failed run can
    still leave output artifacts.  For an input that needs no conversion,
    every entry that differs after a failed run is at the output path,
    where a failing [sf.write] may leave a partial file, or is a directory
    created by [os.makedirs]. *)
Theorem C8_failed_run_changes :
  (forall (env : Env) (s s' : fs) (input_path output_path : string) (target_sr : Z)
          (e : exc),
     needs_conversion input_path = false ->
     process_audio env input_path output_path target_sr s = (inl e, s') ->
     forall p, s' !! p <> s !! p -> p = output_path \/ s' !! p = Some FDir) /\
  (forall (env : Env) (s : fs) (input_path output_path : string) (target_sr : Z),
     let converted_path := converted_name input_path in
     let s' := snd (catchM (pipeline env input_path output_path target_sr
                              converted_path (Some converted_path))
                           (fun e => do! cleanup_converted (Some converted_path) in raise e)
                           s) in
     s' !! converted_path = None \/ s' !! converted_path = Some FDir).
Proof.
  split.
  - intros env s s' i o t e Hc Hrun.
    revert Hrun. unfold process_audio. rewrite Hc. cbn. unfold catchM.
    destruct (pipeline env i o t i None s) as [[e'|x] s1] eqn:Hp;
      [|discriminate].
    unfold bindM, cleanup_converted, retM, raise. intros Hr. injection Hr as _ <-.
    exact (pipeline_fail_changed _ _ _ _ _ _ _ _ Hp).
  - intros env s i o t cp. unfold catchM.
    pose proof (converted_name_nonempty i) as Hne. fold cp in Hne.
    destruct (pipeline env i o t cp (Some cp) s) as [[e|x] s1] eqn:Hp.
    + unfold bindM. destruct (cleanup_converted (Some cp) s1) as [[e'|u] s2] eqn:Hcl;
        unfold raise; simpl; exact (cleanup_some_gone _ _ _ _ Hne Hcl).
    + simpl. unfold pipeline in Hp. run_M Hp. step_inv.
      match goal with
      | H : cleanup_converted _ _ = _ |- _ => exact (cleanup_some_gone _ _ _ _ Hne H)
      end.
Qed.

Lemma C8_failed_run_changes_witness :
  (snd (process_audio full_disk_env "rec.wav" "processed/clean.wav" 16000 demo_fs)
     !! "processed" <> demo_fs !! "processed" /\
   ("processed" = "processed/clean.wav" \/
    snd (process_audio full_disk_env "rec.wav" "processed/clean.wav" 16000 demo_fs)
      !! "processed" = Some FDir)) /\
  (stale_fs !! "rec_converted.wav" <> None /\
   let s' := snd (catchM (pipeline demo_env "rec.mp3" "out/clean.wav" 16000
                            (converted_name "rec.mp3") (Some (converted_name "rec.mp3")))
                         (fun e => do! cleanup_converted (Some (converted_name "rec.mp3"))
                                   in raise e)
                         stale_fs) in
   s' !! converted_name "rec.mp3" = None \/ s' !! converted_name "rec.mp3" = Some FDir).
Proof.
  assert (Hrun : process_audio full_disk_env "rec.wav" "processed/clean.wav" 16000 demo_fs
                 = (inl (LibraryError "No space left on device"),
                    snd (process_audio full_disk_env "rec.wav" "processed/clean.wav"
                           16000 demo_fs)))
    by (vm_compute; reflexivity).
  assert (Hne : snd (process_audio full_disk_env "rec.wav" "processed/clean.wav" 16000 demo_fs)
                  !! "processed" <> demo_fs !! "processed")
    by (intros H; vm_compute in H; discriminate H).
  split; [split; [exact Hne|]|split].
  - exact (proj1 C8_failed_run_changes full_disk_env demo_fs _ "rec.wav" "processed/clean.wav"
             16000%Z _ eq_refl Hrun "processed" Hne).
  - vm_compute. discriminate.
  - exact (proj2 C8_failed_run_changes demo_env stale_fs "rec.mp3" "out/clean.wav" 16000%Z).
Defined.

(** ** Sidecar documents written by a run *)

Lemma meta_refl s : meta_only_fixed s s.
Proof. intros p m H. left. exact H. Qed.

Lemma meta_trans s1 s2 s3 :
  meta_only_fixed s1 s2 -> meta_only_fixed s2 s3 -> meta_only_fixed s1 s3.
Proof.
  intros H12 H23 p m H. destruct (H23 p m H) as [H2|Hf]; [|right; exact Hf].
  exact (H12 p m H2).
Qed.

Lemma meta_insert_other s d f :
  (forall m, f <> FMeta m) -> meta_only_fixed s (<[d := f]> s).
Proof.
  intros Hf p m H. destruct (decide (d = p)) as [<-|Hdp].
  - rewrite lookup_insert_eq in H. injection H as ->. exfalso. exact (Hf m eq_refl).
  - rewrite lookup_insert_ne in H by exact Hdp. left. exact H.
Qed.

Lemma meta_insert_fixed s d m0 :
  processing_steps m0 = processing_steps_list -> meta_only_fixed s (<[d := FMeta m0]> s).
Proof.
  intros Hm p m H. destruct (decide (d = p)) as [<-|Hdp].
  - rewrite lookup_insert_eq in H. injection H as <-. right. exact Hm.
  - rewrite lookup_insert_ne in H by exact Hdp. left. exact H.
Qed.

Lemma meta_delete s d : meta_only_fixed s (delete d s).
Proof.
  intros p m H. destruct (decide (d = p)) as [<-|Hdp].
  - rewrite lookup_delete_eq in H. discriminate H.
  - rewrite lookup_delete_ne in H by exact Hdp. left. exact H.
Qed.

Lemma mkdirs_go_meta ds : forall s r s', mkdirs_go ds s = (r, s') -> meta_only_fixed s s'.
Proof.
  induction ds as [|d ds IH]; intros s r s' H; simpl in H.
  - unfold retM in H. inversion H. apply meta_refl.
  - destruct (s !! d) as [f|]; [destruct f|];
      try (inversion H; apply meta_refl).
    + eapply IH. exact H.
    + eapply meta_trans; [apply (meta_insert_other s d FDir); intros ? Hc; discriminate Hc|].
      eapply IH. exact H.
Qed.

Lemma os_makedirs_meta d s r s' : os_makedirs d s = (r, s') -> meta_only_fixed s s'.
Proof.
  unfold os_makedirs, raise. destruct (String.eqb d "").
  - intros H. inversion H. apply meta_refl.
  - apply mkdirs_go_meta.
Qed.

Lemma sf_write_meta env o d rt s r s' : sf_write env o d rt s = (r, s') -> meta_only_fixed s s'.
Proof.
  unfold sf_write, raise.
  destruct (negb _); [intros H; inversion H; apply meta_refl|].
  intros H. destruct (s !! o) as [f|]; [destruct f|];
    try (inversion H; apply meta_refl);
    destruct (sf_io env o d rt) as [[e [|]]|]; inversion H;
    first [apply meta_refl | apply meta_insert_other; intros ? Hc; discriminate Hc].
Qed.

Lemma write_metadata_meta env mp md s r s' :
  processing_steps md = processing_steps_list ->
  write_metadata env mp md s = (r, s') -> meta_only_fixed s s'.
Proof.
  intros Hmd. unfold write_metadata, catchM, retM.
  destruct (open_fails env mp); [intros H; inversion H; apply meta_refl|].
  destruct (s !! mp) as [f|]; [destruct f|]; intros H; inversion H;
    first [apply meta_refl | apply meta_insert_fixed; exact Hmd].
Qed.

Lemma cleanup_meta cp s r s' : cleanup_converted cp s = (r, s') -> meta_only_fixed s s'.
Proof.
  unfold cleanup_converted, retM, catchM, os_remove.
  destruct cp as [p|]; [|intros H; inversion H; apply meta_refl].
  destruct (String.eqb p ""); [intros H; inversion H; apply meta_refl|].
  destruct (path_exists s p); [|intros H; inversion H; apply meta_refl].
  destruct (s !! p) as [f|]; [destruct f|]; intros H; inversion H;
    first [apply meta_refl | apply meta_delete].
Qed.

Lemma pipeline_meta env i o t lp cp s r s' :
  pipeline env i o t lp cp s = (r, s') -> meta_only_fixed s s'.
Proof.
  unfold pipeline. intros H. run_M H; step_inv;
  repeat match goal with
  | H : (_, _) = (_, _) |- _ => injection H as _ <-
  | H : retM _ _ = (_, _) |- _ => apply retM_inv in H as [_ H]; subst
  | H : resample_step _ _ _ _ _ = _ |- _ => apply resample_step_state in H; subst
  | H : os_makedirs _ _ = _ |- _ => apply os_makedirs_meta in H
  | H : sf_write _ _ _ _ _ = _ |- _ => apply sf_write_meta in H
  | H : write_metadata _ _ _ _ = _ |- _ => apply write_metadata_meta in H; [|reflexivity]
  | H : cleanup_converted _ _ = _ |- _ => apply cleanup_meta in H
  end;
  repeat first [ apply meta_refl | assumption | eapply meta_trans; [eassumption|] ].
Qed.

Lemma process_audio_meta env i o t s r s' :
  process_audio env i o t s = (r, s') -> meta_only_fixed s s'.
Proof.
  unfold process_audio. destruct (needs_conversion i).
  - rewrite convert_to_wav_raises. cbn. intros H. inversion H. apply meta_refl.
  - cbn. unfold catchM.
    destruct (pipeline env i o t i None s) as [[e|x] s1] eqn:Hp.
    + unfold bindM, cleanup_converted, retM, raise. intros H. inversion H; subst.
      eapply pipeline_meta. exact Hp.
    + intros H. inversion H; subst. eapply pipeline_meta. exact Hp.
Qed.

(** ** A denoiser that raises is a pass-through *)

Lemma denoise_passthrough env :
  (forall y noise sr, exists e, reduce_noise env y noise sr = inl e) ->
  denoise (with_passthrough_denoiser env) = denoise env.
Proof.
  intros Hr.
  apply functional_extensionality; intros y.
  apply functional_extensionality; intros noise.
  apply functional_extensionality; intros sr.
  unfold denoise. cbn. destruct (Hr y noise sr) as [e ->]. reflexivity.
Qed.

Lemma pipeline_passthrough env :
  (forall y noise sr, exists e, reduce_noise env y noise sr = inl e) ->
  pipeline (with_passthrough_denoiser env) = pipeline env.
Proof.
  intros Hr. unfold pipeline. rewrite (denoise_passthrough env Hr). reflexivity.
Qed.

(** ** Claim C4 *)

(** C4 counterexample: in [demo_env], [nr.reduce_noise] raises on every
    input.  The run on [rec.wav] still succeeds.  Its sidecar
    [out/clean_metadata.json] still lists the denoise step name
    ["NoiseReduction(noisereduce)"] among [processing_steps]. *)
Lemma C4_denoise_name_recorded_counterexample :
  (forall y noise sr, exists e, reduce_noise demo_env y noise sr = inl e) /\
  fst (process_audio demo_env "rec.wav" "out/clean.wav" 16000 demo_fs)
    = inr (4 # 16000, 16000%Z) /\
  exists m,
    snd (process_audio demo_env "rec.wav" "out/clean.wav" 16000 demo_fs)
      !! "out/clean_metadata.json" = Some (FMeta m) /\
    In "NoiseReduction(noisereduce)" (processing_steps m).
Proof.
  split; [intros y noise sr; eexists; reflexivity|].
  split; [vm_compute; reflexivity|].
  vm_compute. eexists. split; [reflexivity|]. right. left. reflexivity.
Qed.

(** C4 (amended): when [nr.reduce_noise] raises on every input, the
    failure is absorbed.  [process_audio] behaves exactly as it does with
    a pass-through denoiser: same result, same file system.  Whatever the
    outcome, every sidecar document the run writes lists the fixed
    [processing_steps], and that list includes the denoise step name.  So
    the recorded steps do not depend on which stages actually ran. *)
Theorem C4_denoise_failure_absorbed :
  forall (env : Env) (input_path output_path : string) (target_sr : Z) (s : fs),
    (forall y noise sr, exists e, reduce_noise env y noise sr = inl e) ->
    process_audio env input_path output_path target_sr s
      = process_audio (with_passthrough_denoiser env) input_path output_path target_sr s /\
    In "NoiseReduction(noisereduce)" processing_steps_list /\
    (forall r s' p m,
        process_audio env input_path output_path target_sr s = (r, s') ->
        s' !! p = Some (FMeta m) ->
        s !! p = Some (FMeta m) \/ processing_steps m = processing_steps_list).
Proof.
  intros env i o t s Hr. split; [|split].
  - unfold process_audio. rewrite (pipeline_passthrough env Hr). reflexivity.
  - right. left. reflexivity.
  - intros r s' p m Hrun. exact (process_audio_meta _ _ _ _ _ _ _ Hrun p m).
Qed.

Lemma C4_denoise_failure_absorbed_witness :
  (forall y noise sr, exists e, reduce_noise demo_env y noise sr = inl e) /\
  process_audio demo_env "rec.wav" "out/clean.wav" 16000 demo_fs
    = process_audio (with_passthrough_denoiser demo_env) "rec.wav" "out/clean.wav" 16000
        demo_fs.
Proof.
  assert (Hr : forall y noise sr, exists e, reduce_noise demo_env y noise sr = inl e)
    by (intros y noise sr; eexists; reflexivity).
  split; [exact Hr|].
  exact (proj1 (C4_denoise_failure_absorbed demo_env "rec.wav" "out/clean.wav" 16000
                  demo_fs Hr)).
Defined.

(** ** Peak normalization *)

Lemma fold_left_Qmax_ge r : forall acc,
  acc <= fold_left Qmax r acc /\ Forall (fun z => z <= fold_left Qmax r acc) r.
Proof.
  induction r as [|a r IH]; intros acc; simpl.
  - split; [apply Qle_refl | constructor].
  - destruct (IH (Qmax acc a)) as [H1 H2]. split.
    + eapply Qle_trans; [apply Q.le_max_l | exact H1].
    + constructor; [eapply Qle_trans; [apply Q.le_max_r | exact H1] | exact H2].
Qed.

Lemma list_max_ge l : Forall (fun z => z <= list_max l) l.
Proof.
  destruct l as [|x r]; [constructor|]. simpl.
  destruct (fold_left_Qmax_ge r x) as [H1 H2]. constructor; assumption.
Qed.

Lemma fold_left_Qmax_le r : forall acc b,
  acc <= b -> Forall (fun z => z <= b) r -> fold_left Qmax r acc <= b.
Proof.
  induction r as [|a r IH]; intros acc b Hacc Hr; simpl; [exact Hacc|].
  inversion Hr as [|? ? Ha Hr']; subst.
  apply IH; [apply Q.max_lub; assumption | exact Hr'].
Qed.

Lemma list_max_le l b : 0 <= b -> Forall (fun z => z <= b) l -> list_max l <= b.
Proof.
  intros Hb Hl. destruct l as [|x r]; simpl; [exact Hb|].
  inversion Hl as [|? ? Hx Hr]; subst. apply fold_left_Qmax_le; assumption.
Qed.

Lemma scaled_sample_bound x peak tp :
  0 < peak -> Qabs x <= peak -> 0 <= tp -> Qabs (x / peak * tp) <= tp.
Proof.
  intros Hp Hx Ht. apply Qabs_Qle_condition in Hx as [Hlo Hhi].
  assert (Hq1 : x / peak <= 1).
  { apply Qle_shift_div_r; [exact Hp|]. rewrite Qmult_1_l. exact Hhi. }
  assert (Hq0 : -1 <= x / peak).
  { apply Qle_shift_div_l; [exact Hp|].
    assert (E : -1 * peak == - peak) by ring. rewrite E. exact Hlo. }
  apply Qabs_Qle_condition. split.
  - assert (E : - tp == -1 * tp) by ring. rewrite E.
    apply Qmult_le_compat_r; assumption.
  - apply Qle_trans with (1 * tp); [apply Qmult_le_compat_r; assumption|].
    rewrite Qmult_1_l. apply Qle_refl.
Qed.

(** [normalize_peak]: for a target peak [tp >= 0], every sample of the
    result has magnitude at most [tp]; a buffer whose samples are all zero
    (or that is empty) is returned unchanged, so no division by a zero peak
    happens. *)
Theorem normalize_peak_bounded :
  forall (y : list Q) (target_peak : Q),
    0 <= target_peak ->
    Forall (fun z => Qabs z <= target_peak) (normalize_peak y target_peak) /\
    (Forall (fun x => x == 0) y -> normalize_peak y target_peak = y).
Proof.
  intros y tp Ht. destruct y as [|x0 r]; [split; [constructor | reflexivity]|].
  unfold normalize_peak.
  set (l := x0 :: r).
  set (peak := list_max (map Qabs l)).
  assert (Hge : forall x, In x l -> Qabs x <= peak).
  { intros x Hin. pose proof (list_max_ge (map Qabs l)) as H.
    rewrite List.Forall_forall in H. apply H. apply in_map. exact Hin. }
  destruct (Qeq_bool peak 0) eqn:E.
  - apply Qeq_bool_eq in E. split; [|reflexivity].
    apply List.Forall_forall. intros x Hin.
    eapply Qle_trans; [apply Hge; exact Hin|]. rewrite E. exact Ht.
  - assert (Hpos : 0 < peak).
    { pose proof (Qle_trans _ _ _ (Qabs_nonneg x0) (Hge x0 (or_introl eq_refl))) as H0.
      apply Qle_lt_or_eq in H0 as [Hlt|Heq]; [exact Hlt|].
      exfalso. apply Qeq_bool_neq in E. apply E. apply Qeq_sym. exact Heq. }
    split.
    + apply List.Forall_forall. intros z Hz. apply in_map_iff in Hz as (x & <- & Hin).
      apply scaled_sample_bound; [exact Hpos | apply Hge; exact Hin | exact Ht].
    + intros Hz. exfalso.
      assert (Hle : peak <= 0).
      { apply list_max_le; [apply Qle_refl|].
        apply List.Forall_map. eapply List.Forall_impl; [|exact Hz].
        intros x Hx. rewrite Hx. apply Qle_refl. }
      apply (Qlt_not_le _ _ Hpos Hle).
Qed.

Lemma normalize_peak_bounded_witness :
  0 <= 95#100 /\ Forall (fun z => Qabs z <= 95#100) (normalize_peak demo_samples (95#100)).
Proof.
  assert (Ht : 0 <= 95#100) by (apply Qle_bool_imp_le; reflexivity).
  split; [exact Ht|]. exact (proj1 (normalize_peak_bounded demo_samples (95#100) Ht)).
Defined.

(** ** Inputs that need no conversion *)

(** An input whose extension needs no conversion never reaches the
    subprocess: [process_audio] gives the same result and the same file
    system whatever spawning ffmpeg would do (including ffmpeg being
    absent). *)
Theorem no_conversion_ignores_ffmpeg :
  forall (env : Env) (ex : fs -> list string -> exec_result)
         (input_path output_path : string) (target_sr : Z) (s : fs),
    needs_conversion input_path = false ->
    process_audio (with_exec env ex) input_path output_path target_sr s
      = process_audio env input_path output_path target_sr s.
Proof.
  intros env ex i o t s Hc. unfold process_audio. rewrite Hc. reflexivity.
Qed.

Lemma no_conversion_ignores_ffmpeg_witness :
  needs_conversion "rec.wav" = false /\
  process_audio (with_exec demo_env (fun _ _ => ExecNotFound)) "rec.wav" "out/clean.wav"
    16000 demo_fs
    = process_audio demo_env "rec.wav" "out/clean.wav" 16000 demo_fs.
Proof.
  assert (Hc : needs_conversion "rec.wav" = false) by (vm_compute; reflexivity).
  split; [exact Hc|].
  exact (no_conversion_ignores_ffmpeg demo_env (fun _ _ => ExecNotFound) "rec.wav"
           "out/clean.wav" 16000 demo_fs Hc).
Defined.

(** ** What a successful run writes *)

Lemma duration_step_inr {A} (c : bool) e (v : A) s x s' :
  (if c then raise e else retM v) s = (inr x, s') -> c = false /\ x = v /\ s' = s.
Proof. destruct c; unfold raise, retM; intros H; inversion H; auto. Qed.


(** The successful path of [pipeline] for an input that needs no
    conversion, cut into its observable pieces. *)
Lemma pipeline_success env i o t s d fr s' :
  pipeline env i o t i None s = (inr (d, fr), s') ->
  exists y sr y_out s5 s6 md,
    lib_load env s i = inr (y, sr) /\
    os_makedirs (PyStr.dirname o) s = (inr tt, s6) /\
    s5 = <[o := FAudio y_out t "PCM_16"]> s6 /\
    (t =? 0)%Z = false /\ fr = t /\
    d = inject_Z (Z.of_nat (length y_out)) / inject_Z t /\
    md = {| input_file := abspath env i;
            output_file := abspath env o;
            original_sr := sr;
            original_duration_sec :=
              if (sr =? 0)%Z then None
              else Some (inject_Z (Z.of_nat (length y)) / inject_Z sr);
            final_sr := t;
            final_duration_sec := d;
            processing_date_utc := now_utc env;
            processing_steps := processing_steps_list |} /\
    write_metadata env (meta_path_of o) md s5 = (inr tt, s').
Proof.
  unfold pipeline. intros H. run_M H.
  match goal with
  | Hd : (if _ then raise _ else retM _) _ = (inr _, _) |- _ =>
      apply duration_step_inr in Hd as (Hz & -> & ->)
  end.
  step_inv.
  match goal with
  | Hr : resample_step _ _ _ _ _ = _ |- _ =>
      apply resample_step_inv in Hr as (-> & -> & _)
  end.
  match goal with
  | Hw : sf_write _ _ _ _ _ = _ |- _ => apply sf_write_inr in Hw; subst
  end.
  match goal with
  | Hw : write_metadata _ _ _ _ = (inr ?u, _) |- _ => destruct u
  end.
  match goal with
  | Hmk : os_makedirs _ _ = (inr ?u, _) |- _ => destruct u
  end.
  do 6 eexists. split; [symmetry; eassumption|]. split; [eassumption|].
  split; [reflexivity|]. split; [exact Hz|]. split; [reflexivity|].
  split; [reflexivity|]. split; [reflexivity|]. eassumption.
Qed.

Lemma process_audio_success_pipeline env i o t s d fr s' :
  process_audio env i o t s = (inr (d, fr), s') ->
  needs_conversion i = false /\ pipeline env i o t i None s = (inr (d, fr), s').
Proof.
  unfold process_audio. destruct (needs_conversion i).
  - rewrite convert_to_wav_raises. cbn. discriminate.
  - cbn. unfold catchM.
    destruct (pipeline env i o t i None s) as [[e|x] s1] eqn:Hp.
    + unfold bindM, cleanup_converted, retM, raise. discriminate.
    + intros H. inversion H; subst. auto.
Qed.

(** When [process_audio] returns (duration, sr), the target rate
    was non-zero, the output path holds a 16-bit PCM file at the target
    rate, and the duration returned is that file's sample count over the
    rate. *)
Theorem process_audio_output_written :
  forall (env : Env) (s s' : fs) (input_path output_path : string)
         (target_sr : Z) (duration : Q) (fr : Z),
    process_audio env input_path output_path target_sr s = (inr (duration, fr), s') ->
    target_sr <> 0%Z /\
    exists y_out, s' !! output_path = Some (FAudio y_out target_sr "PCM_16") /\
      duration = inject_Z (Z.of_nat (length y_out)) / inject_Z target_sr.
Proof.
  intros env s s' i o t d fr Hrun.
  apply process_audio_success_pipeline in Hrun as [_ Hp].
  apply pipeline_success in Hp
    as (y & sr & y_out & s5 & s6 & md & _ & _ & -> & Hz & _ & Hd & _ & Hw).
  split; [apply Z.eqb_neq, Hz|].
  exists y_out. split; [|exact Hd].
  rewrite (write_metadata_other env _ _ _ _ _ o (fun E => meta_path_of_neq o (eq_sym E)) Hw).
  apply lookup_insert_eq.
Qed.

Lemma process_audio_output_written_witness :
  process_audio demo_env "rec.wav" "out/clean.wav" 16000 demo_fs
    = (inr (4 # 16000, 16000%Z),
       snd (process_audio demo_env "rec.wav" "out/clean.wav" 16000 demo_fs)) /\
  16000%Z <> 0%Z /\
  exists y_out,
    snd (process_audio demo_env "rec.wav" "out/clean.wav" 16000 demo_fs) !! "out/clean.wav"
      = Some (FAudio y_out 16000 "PCM_16") /\
    4 # 16000 = inject_Z (Z.of_nat (length y_out)) / inject_Z 16000.
Proof.
  assert (H : process_audio demo_env "rec.wav" "out/clean.wav" 16000 demo_fs
    = (inr (4 # 16000, 16000%Z),
       snd (process_audio demo_env "rec.wav" "out/clean.wav" 16000 demo_fs)))
    by (vm_compute; reflexivity).
  split; [exact H|].
  exact (process_audio_output_written demo_env demo_fs _ "rec.wav" "out/clean.wav"
           16000 (4 # 16000) 16000 H).
Defined.



(** ** The split never fails *)

Lemma last_cons_default {A} (b : A) r d : List.last (b :: r) d = List.last r b.
Proof.
  revert b d. induction r as [|c r IH]; intros b d; [reflexivity|].
  change (List.last (b :: c :: r) d) with (List.last (c :: r) d).
  rewrite (IH c d). symmetry. apply IH.
Qed.

Lemma flip_edges_parity m : forall i prev,
  Nat.Even (length (flip_edges i prev m) + b2n prev + b2n (List.last m prev)).
Proof.
  induction m as [|b r IH]; intros i prev.
  - destruct prev; [exists 1%nat | exists 0%nat]; reflexivity.
  - rewrite last_cons_default. cbn [flip_edges].
    destruct (IH (i + 1)%Z b) as [k Hk].
    destruct b, prev; simpl in *.
    + exists k. lia.
    + exists k. simpl. lia.
    + exists (S k). simpl. lia.
    + exists k. lia.
Qed.

Lemma pairs_even n : forall l : list Z,
  (length l <= n)%nat -> Nat.Even (length l) -> exists ps, pairs l = inr ps.
Proof.
  induction n as [|n IH]; intros l Hl He.
  - destruct l; [exists []; reflexivity | simpl in Hl; lia].
  - destruct l as [|a [|b r]].
    + exists []. reflexivity.
    + destruct He as [k Hk]. simpl in Hk. lia.
    + destruct (IH r) as [ps Hps].
      * simpl in Hl. lia.
      * destruct He as [k Hk]. exists (k - 1)%nat. simpl in Hk. lia.
      * exists ((a, b) :: ps). simpl. rewrite Hps. reflexivity.
Qed.

Lemma signal_to_frame_nonsilent_cons y top_db :
  exists b r, signal_to_frame_nonsilent y top_db = b :: r.
Proof.
  destruct (rms_power_cons y) as (p & r & E).
  unfold signal_to_frame_nonsilent. cbv zeta. rewrite E. eexists _, _. reflexivity.
Qed.

Lemma librosa_split_eq y top_db :
  librosa_split y top_db
  = match split_frames (signal_to_frame_nonsilent y top_db) with
    | inl e => inl e
    | inr edges => pairs (map (fun f => Z.min (f * hop_length) (Z.of_nat (length y))) edges)
    end.
Proof. reflexivity. Qed.

(** [vad_with_librosa] never raises: for every buffer, the empty one
    included, and every threshold, [librosa.effects.split] finds an even
    number of frame edges (the energy series is never empty, and each
    silent/non-silent flip is matched), so the reshape into intervals
    always succeeds and a segment list is returned. *)
Theorem vad_with_librosa_total :
  forall (y : list Q) (sr top_db : Z) (min_segment_duration : Q),
    exists segments, vad_with_librosa y sr top_db min_segment_duration = inr segments.
Proof.
  intros y sr top_db min_d. rewrite vad_with_librosa_eq, librosa_split_eq.
  destruct (signal_to_frame_nonsilent_cons y top_db) as (b0 & r & ->).
  unfold split_frames.
  set (edges := (if b0 then [0%Z] else []) ++ flip_edges 1 b0 r ++
                (if List.last (b0 :: r) false then [Z.of_nat (length (b0 :: r))] else [])).
  destruct (pairs_even (length edges)
              (map (fun f => Z.min (f * hop_length) (Z.of_nat (length y))) edges))
    as [ps Hps].
  - rewrite List.length_map. lia.
  - rewrite List.length_map. unfold edges. rewrite !List.length_app, last_cons_default.
    pose proof (flip_edges_parity r 1 b0) as [k Hk].
    exists k. destruct (List.last r b0), b0; simpl in *; lia.
  - rewrite Hps. eexists. reflexivity.
Qed.

(** ** The noise profile is a non-empty window of the buffer *)

Lemma py_slice_infix {A} (y : list A) i j :
  exists pre post, y = pre ++ py_slice y i j ++ post.
Proof.
  unfold py_slice. cbv zeta.
  set (a := Z.to_nat (py_index (Z.of_nat (length y)) i)).
  set (k := Z.to_nat (py_index (Z.of_nat (length y)) j - py_index (Z.of_nat (length y)) i)).
  exists (firstn a y), (skipn k (skipn a y)).
  rewrite !List.firstn_skipn. reflexivity.
Qed.

Lemma length_rms_power y : length (rms_power y) = S (length y / 512).
Proof.
  unfold rms_power. cbv zeta. rewrite List.length_map, List.length_seq.
  rewrite !List.length_app, !List.repeat_length. unfold frame_length.
  f_equal. f_equal. lia.
Qed.

Lemma argmin_go_lt r : forall i best bi,
  (bi < i)%nat -> (argmin_go r i best bi < i + length r)%nat.
Proof.
  induction r as [|x r IH]; intros i best bi Hbi; simpl; [lia|].
  destruct (Qltb x best).
  - specialize (IH (S i) x i ltac:(lia)). lia.
  - specialize (IH (S i) best bi ltac:(lia)). lia.
Qed.

Lemma argmin_lt l : l <> [] -> (argmin l < length l)%nat.
Proof.
  destruct l as [|x r]; [congruence|]. intros _. simpl.
  pose proof (argmin_go_lt r 1 x 0 ltac:(lia)). lia.
Qed.

(** For a non-empty buffer and a rate of at least 2 Hz, the noise
    profile [process_audio] passes to the denoiser
    ([get_noise_profile(y, sr, duration=0.5)]) is a non-empty contiguous
    run of samples of [y], at most [int(0.5 * sr)] long. *)
Theorem noise_profile_nonempty_window :
  forall (y : list Q) (sr : Z),
    y <> [] -> (2 <= sr)%Z ->
    get_noise_profile y sr (1#2) <> [] /\
    (Z.of_nat (length (get_noise_profile y sr (1#2))) <= py_int ((1#2) * inject_Z sr))%Z /\
    exists pre post, y = pre ++ get_noise_profile y sr (1#2) ++ post.
Proof.
  intros y sr Hy Hsr.
  assert (Hn : py_int ((1#2) * inject_Z sr) = (sr / 2)%Z).
  { unfold py_int. simpl. rewrite Z.mul_1_l. apply Z.quot_div_nonneg; lia. }
  assert (Hn1 : (1 <= sr / 2)%Z) by (apply Z.div_le_lower_bound; lia).
  assert (Hlen : (0 < length y)%nat) by (destruct y; [congruence|simpl; lia]).
  unfold get_noise_profile. rewrite Hn.
  destruct (rms_power_cons y) as (p & r & He).
  pose proof (argmin_lt (rms_power y) ltac:(rewrite He; discriminate)) as Ham.
  rewrite length_rms_power in Ham. rewrite He in Ham.
  pose proof (Nat.Div0.mul_div_le (length y) 512) as Hmd.
  rewrite He. cbv beta iota zeta.
  destruct ((sr / 2 <=? Z.of_nat (length y))%Z && (0 <? sr / 2)%Z) eqn:E.
  - apply andb_true_iff in E as [E1 E2]. apply Z.leb_le in E1.
    split; [|split; [|apply py_slice_infix]]; rewrite py_slice_prefix by lia.
    + intros H0. apply (f_equal (@length Q)) in H0.
      rewrite List.length_firstn in H0. simpl in H0. lia.
    + rewrite List.length_firstn. lia.
  - apply andb_false_iff in E as [E | E]; [|apply Z.ltb_ge in E; lia].
    apply Z.leb_gt in E.
    set (st := Z.max 0 (Z.of_nat (argmin (p :: r)) * hop_length - sr / 2 / 2)).
    assert (Hst : (0 <= st < Z.of_nat (length y))%Z).
    { unfold st, hop_length.
      assert (Hh : (1 <= sr / 2 / 2)%Z) by (apply Z.div_le_lower_bound; lia).
      lia. }
    rewrite Z.min_l by lia. rewrite py_slice_to_end by lia.
    split; [|split].
    + intros H0. apply (f_equal (@length Q)) in H0.
      rewrite List.length_skipn in H0. simpl in H0. lia.
    + rewrite List.length_skipn. lia.
    + exists (firstn (Z.to_nat st) y), []. rewrite List.app_nil_r.
      symmetry. apply List.firstn_skipn.
Qed.

Lemma noise_profile_nonempty_window_witness :
  demo_samples <> [] /\ (2 <= 16000)%Z /\
  get_noise_profile demo_samples 16000 (1#2) <> [] /\
  (Z.of_nat (length (get_noise_profile demo_samples 16000 (1#2)))
     <= py_int ((1#2) * inject_Z 16000))%Z /\
  exists pre post, demo_samples = pre ++ get_noise_profile demo_samples 16000 (1#2) ++ post.
Proof.
  assert (Hy : demo_samples <> []) by discriminate.
  split; [exact Hy|]. split; [lia|].
  exact (noise_profile_nonempty_window demo_samples 16000 Hy ltac:(lia)).
Defined.

(** ** The speech-only buffer is a sub-list of the input *)

Lemma split_frames_nonneg m es :
  split_frames m = inr es -> Forall (fun e => (0 <= e)%Z) es.
Proof.
  destruct m as [|b0 r]; [discriminate|].
  unfold split_frames. intros H; injection H as <-.
  apply List.Forall_forall. intros e He.
  repeat match goal with
         | H : In _ (_ ++ _) |- _ => apply in_app_or in H as [H | H]
         | H : In _ [] |- _ => contradiction H
         | H : In _ [_] |- _ => destruct H as [<- | []]
         | H : In _ (if ?b then _ else _) |- _ => destruct b; simpl in H
         | H : In _ (flip_edges _ _ _) |- _ => apply flip_edges_bounds in H
         end; lia.
Qed.

Lemma pairs_in n : forall l ps,
  (length l <= n)%nat -> pairs l = inr ps ->
  forall a b, In (a, b) ps -> In a l /\ In b l.
Proof.
  induction n as [|n IH]; intros l ps Hlen Hp a b Hab.
  - destruct l; simpl in *; [|lia]. injection Hp as <-. contradiction Hab.
  - destruct l as [|x [|z r]]; simpl in Hp.
    + injection Hp as <-. contradiction Hab.
    + discriminate.
    + destruct (pairs r) as [e|ps'] eqn:Hr; [discriminate|].
      injection Hp as <-. destruct Hab as [Hab | Hab].
      * injection Hab as -> ->. simpl; auto.
      * destruct (IH r ps' ltac:(simpl in Hlen; lia) Hr a b Hab). simpl; auto.
Qed.

Lemma librosa_split_bounds y top_db ivs :
  librosa_split y top_db = inr ivs ->
  Forall (fun iv => (0 <= fst iv)%Z /\ (snd iv <= Z.of_nat (length y))%Z) ivs.
Proof.
  rewrite librosa_split_eq.
  destruct (split_frames (signal_to_frame_nonsilent y top_db)) as [e|es] eqn:Hs;
    [discriminate|].
  intros Hp. apply split_frames_nonneg in Hs.
  apply List.Forall_forall. intros [a b] Hab.
  destruct (pairs_in _ _ _ (le_n _) Hp a b Hab) as [Ha Hb].
  apply in_map_iff in Ha as (fa & <- & Ha). apply in_map_iff in Hb as (fb & <- & Hb).
  rewrite List.Forall_forall in Hs. apply Hs in Ha. apply Hs in Hb.
  simpl. unfold hop_length. lia.
Qed.

Lemma py_slice_inside {A} (y : list A) a b :
  (0 <= a)%Z -> (a <= b)%Z -> (b <= Z.of_nat (length y))%Z ->
  py_slice y a b = firstn (Z.to_nat (b - a)) (skipn (Z.to_nat a) y).
Proof.
  intros Ha Hab Hb. unfold py_slice, py_index. cbv zeta.
  destruct (a <? 0)%Z eqn:E1; [apply Z.ltb_lt in E1; lia|].
  destruct (b <? 0)%Z eqn:E2; [apply Z.ltb_lt in E2; lia|].
  rewrite (Z.min_l a) by lia. rewrite (Z.min_l b) by lia. reflexivity.
Qed.

Lemma slices_sublist (y : list Q) ivs : forall lo,
  chain Z.le ivs ->
  Forall (fun iv => (lo <= fst iv)%Z /\ (snd iv <= Z.of_nat (length y))%Z) ivs ->
  (0 <= lo)%Z ->
  concat (map (fun iv => py_slice y (fst iv) (snd iv)) ivs)
    `sublist_of` skipn (Z.to_nat lo) y.
Proof.
  induction ivs as [|[a b] r IH]; intros lo Hc Hb Hlo; simpl; [apply sublist_nil_l|].
  destruct Hc as (Hab & Hr & Hc). inversion Hb as [|? ? [Hla Hbl] Hb']; subst.
  simpl in Hla, Hbl.
  rewrite py_slice_inside by lia.
  assert (Hs : skipn (Z.to_nat lo) y
               = firstn (Z.to_nat (a - lo)) (skipn (Z.to_nat lo) y)
                 ++ firstn (Z.to_nat (b - a)) (skipn (Z.to_nat a) y)
                 ++ skipn (Z.to_nat b) y).
  { rewrite <- (List.firstn_skipn (Z.to_nat (a - lo)) (skipn (Z.to_nat lo) y)) at 1.
    f_equal. rewrite List.skipn_skipn.
    replace (Z.to_nat (a - lo) + Z.to_nat lo)%nat with (Z.to_nat a) by lia.
    rewrite <- (List.firstn_skipn (Z.to_nat (b - a)) (skipn (Z.to_nat a) y)) at 1.
    f_equal. rewrite List.skipn_skipn. f_equal. lia. }
  rewrite Hs. apply sublist_inserts_l. apply sublist_app; [reflexivity|].
  apply IH; [exact Hc| |lia].
  apply List.Forall_forall. intros [c d] Hcd.
  rewrite List.Forall_forall in Hr, Hb'.
  split; [exact (Hr _ Hcd)|exact (proj2 (Hb' _ Hcd))].
Qed.

Lemma stitched_eq (y : list Q) sr top_db min_d segs ivs :
  (0 < sr)%Z -> librosa_split y top_db = inr ivs ->
  vad_with_librosa y sr top_db min_d = inr segs ->
  concatenate_segments y sr segs
  = concat (map (fun iv => py_slice y (fst iv) (snd iv))
                (List.filter (long_enough sr min_d) ivs)).
Proof.
  intros Hsr Hs Hv. rewrite vad_with_librosa_eq, Hs in Hv. injection Hv as <-.
  rewrite vad_loop_map_filter. unfold concatenate_segments.
  set (kept := List.filter (long_enough sr min_d) ivs).
  pose proof (slices_of_seconds y sr kept Hsr) as Hsl.
  clearbody kept. destruct kept as [|iv r]; [reflexivity|].
  simpl map in Hsl |- *. cbn zeta. rewrite Hsl. reflexivity.
Qed.

(** For a positive rate, the speech-only buffer [process_audio]
    builds ([concatenate_segments] of the segments [vad_with_librosa]
    returns) is a sub-list of [y]: samples of the input, in their order,
    none repeated, so it is never longer than the input. *)
Theorem speech_only_sublist :
  forall (y : list Q) (sr top_db : Z) (min_segment_duration : Q)
         (segments : list (Q * Q)),
    (0 < sr)%Z ->
    vad_with_librosa y sr top_db min_segment_duration = inr segments ->
    concatenate_segments y sr segments `sublist_of` y /\
    (length (concatenate_segments y sr segments) <= length y)%nat.
Proof.
  intros y sr top_db min_d segs Hsr Hv.
  assert (Hsub : concatenate_segments y sr segs `sublist_of` y).
  { destruct (librosa_split y top_db) as [e|ivs] eqn:Hs;
      [rewrite vad_with_librosa_eq, Hs in Hv; discriminate|].
    rewrite (stitched_eq y sr top_db min_d segs ivs Hsr Hs Hv).
    change y with (skipn (Z.to_nat 0) y) at 2.
    apply slices_sublist; [|
      |lia].
    - apply chain_filter. exact (librosa_split_chain y top_db ivs Hs).
    - pose proof (librosa_split_bounds y top_db ivs Hs) as Hb.
      apply List.Forall_forall. intros iv Hiv. apply filter_In in Hiv as [Hiv _].
      rewrite List.Forall_forall in Hb. apply Hb in Hiv. lia. }
  split; [exact Hsub|]. apply sublist_length, Hsub.
Qed.

Lemma speech_only_sublist_witness :
  (0 < 16)%Z /\
  vad_with_librosa demo_vad_input 16 40 (3#10) = inr [to_seconds 16 (0, 8)%Z] /\
  concatenate_segments demo_vad_input 16 [to_seconds 16 (0, 8)%Z] `sublist_of` demo_vad_input /\
  (length (concatenate_segments demo_vad_input 16 [to_seconds 16 (0, 8)%Z])
     <= length demo_vad_input)%nat.
Proof.
  assert (Hv : vad_with_librosa demo_vad_input 16 40 (3#10) = inr [to_seconds 16 (0, 8)%Z])
    by (vm_compute; reflexivity).
  split; [lia|]. split; [exact Hv|].
  exact (speech_only_sublist demo_vad_input 16 40 (3#10) _ ltac:(lia) Hv).
Defined.
(** ** Paths built by [create] *)

Lemma rfind_go_app c l1 l2 : forall i acc,
  PyStr.rfind_go c (l1 ++ l2) i acc
  = PyStr.rfind_go c l2 (i + length l1) (PyStr.rfind_go c l1 i acc).
Proof.
  induction l1 as [|x r IH]; intros i acc; simpl; [rewrite Nat.add_0_r; reflexivity|].
  rewrite IH. f_equal. lia.
Qed.

Lemma rfind_go_notin c l : forall i acc, ~ In c l -> PyStr.rfind_go c l i acc = acc.
Proof.
  induction l as [|x r IH]; intros i acc H; simpl; [reflexivity|].
  rewrite IH by (intros Hc; apply H; right; exact Hc).
  destruct (Ascii.eqb x c) eqn:E; [|reflexivity].
  apply Ascii.eqb_eq in E. subst. exfalso. apply H. left. reflexivity.
Qed.

Lemma rfind_go_some c l : forall i a, PyStr.rfind_go c l i (Some a) <> None.
Proof.
  induction l as [|x r IH]; intros i a; simpl; [discriminate|].
  destruct (Ascii.eqb x c); apply IH.
Qed.

Lemma rfind_go_none c l : forall i, PyStr.rfind_go c l i None = None -> ~ In c l.
Proof.
  induction l as [|x r IH]; intros i H; simpl in H; [intros []|].
  destruct (Ascii.eqb x c) eqn:E; [exfalso; exact (rfind_go_some _ _ _ _ H)|].
  intros [Hx | Hx]; [subst; rewrite Ascii.eqb_refl in E; discriminate|].
  exact (IH _ H Hx).
Qed.

Lemma rfind_go_last c l : forall i acc k,
  PyStr.rfind_go c l i acc = Some k ->
  (acc = Some k /\ ~ In c l) \/
  exists l1 l2, l = l1 ++ c :: l2 /\ k = (i + length l1)%nat /\ ~ In c l2.
Proof.
  induction l as [|x r IH]; intros i acc k H; simpl in H.
  - left. split; [exact H | intros []].
  - destruct (IH _ _ _ H) as [[Ha Hn] | (l1 & l2 & -> & -> & Hn)].
    + destruct (Ascii.eqb x c) eqn:E.
      * apply Ascii.eqb_eq in E. subst. injection Ha as <-.
        right. exists [], r. simpl. split; [reflexivity|]. split; [lia|exact Hn].
      * left. split; [exact Ha|]. intros [Hx | Hx]; [|exact (Hn Hx)].
        subst. rewrite Ascii.eqb_refl in E. discriminate.
    + right. exists (x :: l1), l2. simpl. split; [reflexivity|]. split; [lia|exact Hn].
Qed.

Lemma splitext_l_tail pre x r :
  x <> PyStr.dot -> x <> PyStr.slash -> ~ In PyStr.dot r -> ~ In PyStr.slash r ->
  PyStr.splitext_l (pre ++ x :: PyStr.dot :: r) = (pre ++ [x], PyStr.dot :: r).
Proof.
  intros Hxd Hxs Hd Hs.
  assert (El : pre ++ x :: PyStr.dot :: r = pre ++ [x; PyStr.dot] ++ r) by reflexivity.
  unfold PyStr.splitext_l, PyStr.rfind. rewrite El, !rfind_go_app.
  rewrite (rfind_go_notin PyStr.dot r) by exact Hd.
  rewrite (rfind_go_notin PyStr.slash r) by exact Hs.
  assert (Ex1 : Ascii.eqb x PyStr.dot = false) by (apply Ascii.eqb_neq; exact Hxd).
  assert (Ex2 : Ascii.eqb x PyStr.slash = false) by (apply Ascii.eqb_neq; exact Hxs).
  cbn [PyStr.rfind_go]. rewrite Ex1, Ex2.
  change (Ascii.eqb PyStr.dot PyStr.dot) with true.
  change (Ascii.eqb PyStr.dot PyStr.slash) with false.
  cbv iota. rewrite Nat.add_0_l.
  set (n := length pre).
  set (fi := match PyStr.rfind_go PyStr.slash pre 0 None with
             | Some s => S s | None => 0%nat end).
  assert (Hfi : (fi <= n)%nat).
  { unfold fi. destruct (PyStr.rfind_go PyStr.slash pre 0 None) as [k|] eqn:Ek; [|lia].
    destruct (rfind_go_spec _ _ _ _ _ Ek) as [H | [_ H]]; [discriminate H|].
    assert (Hk : nth_error pre k <> None) by (rewrite Nat.sub_0_r in H; congruence).
    apply nth_error_Some in Hk. unfold n. lia. }
  rewrite (proj2 (Nat.leb_le fi (S n))) by lia.
  replace (existsb _ _) with true.
  - rewrite <- El.
    replace (pre ++ x :: PyStr.dot :: r) with ((pre ++ [x]) ++ PyStr.dot :: r)
      by (rewrite <- app_assoc; reflexivity).
    assert (Hl : length (pre ++ [x]) = S n) by (rewrite length_app; simpl; unfold n; lia).
    rewrite <- Hl, List.firstn_app, List.skipn_app, Nat.sub_diag, List.firstn_O,
      List.skipn_O, List.firstn_all, List.skipn_all, !app_nil_r.
    reflexivity.
  - symmetry. apply existsb_exists. exists x. split; [|rewrite Ex1; reflexivity].
    rewrite List.skipn_app.
    replace (fi - length pre)%nat with 0%nat by (unfold n in Hfi; lia).
    rewrite List.skipn_O, List.firstn_app, List.length_skipn.
    apply in_or_app. right.
    replace (S n - fi - (length pre - fi))%nat with 1%nat by (unfold n in *; lia).
    left. reflexivity.
Qed.

Lemma skipn_in {A} (a : A) n : forall l, In a (skipn n l) -> In a l.
Proof.
  induction n as [|n IH]; intros l H; [exact H|].
  destruct l as [|x r]; [exact H|]. right. apply IH, H.
Qed.

Lemma skipn_after {A} (l1 l2 : list A) (c : A) :
  skipn (S (length l1)) (l1 ++ c :: l2) = l2.
Proof. induction l1 as [|x r IH]; [reflexivity|]. exact IH. Qed.

Lemma splitext_l_ext l :
  snd (PyStr.splitext_l l) = [] \/
  exists r, snd (PyStr.splitext_l l) = PyStr.dot :: r /\
            ~ In PyStr.dot r /\ ~ In PyStr.slash r.
Proof.
  unfold PyStr.splitext_l, PyStr.rfind.
  destruct (PyStr.rfind_go PyStr.dot l 0 None) as [d|] eqn:Ed; [|left; reflexivity].
  cbv zeta.
  destruct (_ <=? d)%nat eqn:Hle; [|left; reflexivity].
  destruct existsb; [|left; reflexivity].
  right. simpl snd.
  destruct (rfind_go_last _ _ _ _ _ Ed) as [[Ha _] | (l1 & l2 & El & Hd & Hn)];
    [discriminate Ha|].
  simpl in Hd. subst d.
  assert (Hsk : skipn (length l1) l = PyStr.dot :: l2).
  { rewrite El, List.skipn_app, List.skipn_all, Nat.sub_diag. reflexivity. }
  exists l2. split; [exact Hsk|]. split; [exact Hn|].
  intros Hs.
  destruct (PyStr.rfind_go PyStr.slash l 0 None) as [k|] eqn:Ek.
  - destruct (rfind_go_last _ _ _ _ _ Ek) as [[Ha _] | (m1 & m2 & Em & Hk & Hm)];
      [discriminate Ha|].
    simpl in Hk. subst k. apply Nat.leb_le in Hle.
    apply Hm.
    assert (E2 : skipn (S (length l1)) l = l2) by (rewrite El; apply skipn_after).
    assert (E3 : skipn (S (length m1)) l = m2) by (rewrite Em; apply skipn_after).
    rewrite <- E3. rewrite <- E2 in Hs.
    replace (S (length l1)) with ((S (length l1) - S (length m1)) + S (length m1))%nat
      in Hs by lia.
    rewrite <- List.skipn_skipn in Hs. exact (skipn_in _ _ _ Hs).
  - apply (rfind_go_none _ _ _ Ek).
    rewrite El. apply in_or_app. right. right. exact Hs.
Qed.

Lemma file_extension_shape name :
  exists r, list_ascii_of_string (file_extension_of name) = PyStr.dot :: r /\
            ~ In PyStr.dot r /\ ~ In PyStr.slash r.
Proof.
  unfold file_extension_of, PyStr.splitext.
  destruct (splitext_l_ext (list_ascii_of_string name)) as [E | (r & E & Hd & Hs)];
    destruct (PyStr.splitext_l (list_ascii_of_string name)) as [a b]; simpl in E |- *;
    subst b; simpl.
  - eexists. split; [reflexivity|].
    split; intros H; repeat (destruct H as [H | H]; [discriminate H|]); exact H.
  - exists r. split; [|split; assumption].
    rewrite list_ascii_of_string_of_list_ascii. reflexivity.
Qed.

Lemma join2_suffix a b :
  exists X, list_ascii_of_string (PyPath.join2 a b) = X ++ list_ascii_of_string b.
Proof.
  unfold PyPath.join2.
  destruct (match b with String c _ => Ascii.eqb c PyStr.slash | EmptyString => false end).
  - exists []. reflexivity.
  - destruct (String.eqb a "" || PyPath.ends_slash a).
    + exists (list_ascii_of_string a). apply list_ascii_of_string_app.
    + exists (list_ascii_of_string a ++ ["/"%char]).
      rewrite !list_ascii_of_string_app, <- app_assoc. reflexivity.
Qed.

Lemma raw_path_extension media_root recording_id name :
  snd (PyStr.splitext (raw_file_path_of media_root recording_id name))
  = file_extension_of name.
Proof.
  unfold raw_file_path_of, PyPath.join. simpl fold_left.
  destruct (join2_suffix (raw_dir_of media_root) (raw_filename_of recording_id name))
    as [X HX].
  destruct (file_extension_shape name) as (r & Hr & Hd & Hs).
  unfold PyStr.splitext. rewrite HX. unfold raw_filename_of.
  rewrite !list_ascii_of_string_app, Hr.
  change (list_ascii_of_string "_raw") with ["_"; "r"; "a"; "w"]%char.
  replace (X ++ list_ascii_of_string recording_id ++ ["_"; "r"; "a"; "w"]%char ++ PyStr.dot :: r)
    with ((X ++ list_ascii_of_string recording_id ++ ["_"; "r"; "a"]%char)
            ++ "w"%char :: PyStr.dot :: r)
    by (rewrite <- !app_assoc; reflexivity).
  rewrite splitext_l_tail by (try discriminate; assumption).
  cbn [snd]. rewrite <- Hr. apply string_of_list_ascii_of_string.
Qed.

Lemma needs_conversion_raw_path media_root recording_id name :
  needs_conversion (raw_file_path_of media_root recording_id name) = needs_conversion name.
Proof.
  unfold needs_conversion at 1. rewrite raw_path_extension.
  unfold file_extension_of, needs_conversion.
  destruct (snd (PyStr.splitext name)); reflexivity.
Qed.

Lemma open_write_inr env p c s x s' :
  open_write env p c s = (inr x, s') -> s' = <[p := c]> s.
Proof.
  unfold open_write. destruct (open_fails env p); [discriminate|].
  destruct (s !! p) as [[]|]; intros H; inversion H; reflexivity.
Qed.

Lemma save_raw_inr env media_root recording_id f s p s1 :
  save_raw env media_root recording_id f s = (inr p, s1) ->
  p = raw_file_path_of media_root recording_id (uf_name f) /\ s1 !! p = Some (uf_content f).
Proof.
  unfold save_raw. intros H. run_M H.
  match goal with
  | Hw : open_write _ _ _ _ = (inr _, _) |- _ => apply open_write_inr in Hw; subst
  end.
  unfold retM in H. injection H as <- <-. split; [reflexivity|]. apply lookup_insert_eq.
Qed.

Lemma mkdirs_go_keeps ds : forall s r s' p x,
  mkdirs_go ds s = (r, s') -> s !! p = Some x -> s' !! p = Some x.
Proof.
  induction ds as [|d ds IH]; intros s r s' p x H Hp; simpl in H.
  - unfold retM in H. injection H as _ <-. exact Hp.
  - destruct (s !! d) as [[]|] eqn:Ed; try (injection H as _ <-; exact Hp).
    + exact (IH _ _ _ _ _ H Hp).
    + apply (IH _ _ _ _ _ H). rewrite lookup_insert_ne; [exact Hp|congruence].
Qed.

Lemma os_makedirs_keeps d s r s' p x :
  os_makedirs d s = (r, s') -> s !! p = Some x -> s' !! p = Some x.
Proof.
  unfold os_makedirs. destruct (String.eqb d "").
  - unfold raise. intros H; injection H as _ <-. auto.
  - apply mkdirs_go_keeps.
Qed.

Lemma string_eq_of_lists a b :
  list_ascii_of_string a = list_ascii_of_string b -> a = b.
Proof.
  intros H. rewrite <- (string_of_list_ascii_of_string a), H.
  apply string_of_list_ascii_of_string.
Qed.

Lemma join2_after a b :
  (exists Z c, list_ascii_of_string a = Z ++ [c] /\ c <> PyStr.slash) ->
  match b with String c _ => Ascii.eqb c PyStr.slash | EmptyString => false end = false ->
  list_ascii_of_string (PyPath.join2 a b)
  = list_ascii_of_string a ++ "/"%char :: list_ascii_of_string b.
Proof.
  intros (Z & c & Ha & Hc) Hb. unfold PyPath.join2. rewrite Hb.
  replace (String.eqb a "") with false.
  2:{ symmetry. apply String.eqb_neq. intros ->. destruct Z; discriminate Ha. }
  replace (PyPath.ends_slash a) with false.
  2:{ unfold PyPath.ends_slash. rewrite Ha, rev_app_distr. simpl.
      symmetry. apply Ascii.eqb_neq. exact Hc. }
  simpl. rewrite !list_ascii_of_string_app. reflexivity.
Qed.

Lemma join2_rel a b :
  match b with String c _ => Ascii.eqb c PyStr.slash | EmptyString => false end = false ->
  list_ascii_of_string (PyPath.join2 a b)
  = list_ascii_of_string (if String.eqb a "" || PyPath.ends_slash a then a else a ++ "/")%string
    ++ list_ascii_of_string b.
Proof.
  intros Hb. unfold PyPath.join2. rewrite Hb.
  destruct (_ || _); rewrite !list_ascii_of_string_app; [reflexivity|].
  rewrite <- app_assoc. reflexivity.
Qed.

(** Where [create] puts a file of [recordings/<d>/] and where [audio]
    looks for it agree. *)
Lemma media_path media_root d fname :
  (exists Z c, list_ascii_of_string d = Z ++ [c] /\ c <> PyStr.slash) ->
  match d with String c _ => Ascii.eqb c PyStr.slash | EmptyString => false end = false ->
  match fname with String c _ => Ascii.eqb c PyStr.slash | EmptyString => false end = false ->
  list_ascii_of_string (PyPath.join (PyPath.join media_root ["recordings"; d]) [fname])
  = list_ascii_of_string
      (if String.eqb media_root "" || PyPath.ends_slash media_root
       then media_root else media_root ++ "/")%string
    ++ list_ascii_of_string ("recordings/" ++ d ++ "/" ++ fname) /\
  PyPath.join media_root [("recordings/" ++ d ++ "/" ++ fname)%string]
  = PyPath.join (PyPath.join media_root ["recordings"; d]) [fname].
Proof.
  intros Hd Hd0 Hf. unfold PyPath.join. simpl fold_left.
  assert (Hr : list_ascii_of_string (PyPath.join2 media_root "recordings")
    = list_ascii_of_string
        (if String.eqb media_root "" || PyPath.ends_slash media_root
         then media_root else media_root ++ "/")%string
      ++ list_ascii_of_string "recordings") by (apply join2_rel; reflexivity).
  assert (Hrd : list_ascii_of_string (PyPath.join2 (PyPath.join2 media_root "recordings") d)
    = list_ascii_of_string (PyPath.join2 media_root "recordings")
      ++ "/"%char :: list_ascii_of_string d).
  { apply join2_after; [|exact Hd0].
    rewrite Hr. exists (list_ascii_of_string
        (if String.eqb media_root "" || PyPath.ends_slash media_root
         then media_root else media_root ++ "/")%string
      ++ list_ascii_of_string "recording"), "s"%char.
    split; [rewrite <- app_assoc; reflexivity | discriminate]. }
  assert (Hall : list_ascii_of_string
      (PyPath.join2 (PyPath.join2 (PyPath.join2 media_root "recordings") d) fname)
    = list_ascii_of_string (PyPath.join2 (PyPath.join2 media_root "recordings") d)
      ++ "/"%char :: list_ascii_of_string fname).
  { apply join2_after; [|exact Hf].
    rewrite Hrd. destruct Hd as (Z & c & Hz & Hc). rewrite Hz.
    exists (list_ascii_of_string (PyPath.join2 media_root "recordings") ++ "/"%char :: Z), c.
    split; [rewrite <- app_assoc; reflexivity | exact Hc]. }
  assert (Hone : list_ascii_of_string (PyPath.join2 media_root ("recordings/" ++ d ++ "/" ++ fname))
    = list_ascii_of_string
        (if String.eqb media_root "" || PyPath.ends_slash media_root
         then media_root else media_root ++ "/")%string
      ++ list_ascii_of_string ("recordings/" ++ d ++ "/" ++ fname)) by (apply join2_rel; reflexivity).
  assert (Hlay : list_ascii_of_string
      (PyPath.join2 (PyPath.join2 (PyPath.join2 media_root "recordings") d) fname)
    = list_ascii_of_string
        (if String.eqb media_root "" || PyPath.ends_slash media_root
         then media_root else media_root ++ "/")%string
      ++ list_ascii_of_string ("recordings/" ++ d ++ "/" ++ fname)).
  { rewrite Hall, Hrd, Hr, !list_ascii_of_string_app, <- !app_assoc. reflexivity. }
  split; [exact Hlay|].
  apply string_eq_of_lists. rewrite Hone, Hlay. reflexivity.
Qed.

Lemma prefixb_app p q : PyPath.prefixb p (p ++ q) = true.
Proof. induction p as [|c p IH]; simpl; [reflexivity|]. rewrite Ascii.eqb_refl. exact IH. Qed.

Lemma endswith_of_lists s suffix X :
  list_ascii_of_string s = X ++ list_ascii_of_string suffix -> PyPath.endswith s suffix = true.
Proof. intros H. unfold PyPath.endswith. rewrite H, rev_app_distr. apply prefixb_app. Qed.

Lemma basename_of_lists p b X :
  list_ascii_of_string p = X ++ "/"%char :: list_ascii_of_string b ->
  ~ In PyStr.slash (list_ascii_of_string b) -> PyPath.basename p = b.
Proof.
  intros H Hb. unfold PyPath.basename, PyStr.rfind. rewrite H.
  replace (X ++ "/"%char :: list_ascii_of_string b)
    with ((X ++ [PyStr.slash]) ++ list_ascii_of_string b) by (rewrite <- app_assoc; reflexivity).
  rewrite !rfind_go_app, (rfind_go_notin _ (list_ascii_of_string b)) by exact Hb.
  cbn [PyStr.rfind_go]. change (Ascii.eqb PyStr.slash PyStr.slash) with true.
  cbv iota. rewrite Nat.add_0_l, <- app_assoc.
  change ([PyStr.slash] ++ list_ascii_of_string b) with (PyStr.slash :: list_ascii_of_string b).
  rewrite skipn_after. apply string_of_list_ascii_of_string.
Qed.

Lemma rc_differ (P X Y : list ascii) :
  P ++ list_ascii_of_string "recordings/r" ++ X <> P ++ list_ascii_of_string "recordings/c" ++ Y.
Proof. intros H. apply app_inv_head in H. simpl in H. congruence. Qed.

Lemma filename_head id suffix :
  ~ In PyStr.slash (list_ascii_of_string id) ->
  match suffix with String c _ => Ascii.eqb c PyStr.slash | EmptyString => false end = false ->
  match (id ++ suffix)%string with
  | String c _ => Ascii.eqb c PyStr.slash | EmptyString => false end = false.
Proof.
  intros Hid Hs. destruct id as [|c r]; [exact Hs|]. simpl.
  apply Ascii.eqb_neq. intros ->. apply Hid. left. reflexivity.
Qed.

Lemma no_slash_app a b :
  ~ In PyStr.slash (list_ascii_of_string a) -> ~ In PyStr.slash (list_ascii_of_string b) ->
  ~ In PyStr.slash (list_ascii_of_string (a ++ b)).
Proof.
  intros Ha Hb H. rewrite list_ascii_of_string_app in H.
  apply in_app_or in H as [H | H]; auto.
Qed.

Lemma raw_filename_no_slash id name :
  ~ In PyStr.slash (list_ascii_of_string id) ->
  ~ In PyStr.slash (list_ascii_of_string (raw_filename_of id name)).
Proof.
  intros Hid. unfold raw_filename_of. apply no_slash_app; [exact Hid|].
  apply no_slash_app; [simpl; intuition discriminate|].
  destruct (file_extension_shape name) as (r & Hr & _ & Hs). rewrite Hr.
  intros [H | H]; [discriminate H | exact (Hs H)].
Qed.

Lemma clean_filename_no_slash id :
  ~ In PyStr.slash (list_ascii_of_string id) ->
  ~ In PyStr.slash (list_ascii_of_string (clean_filename_of id)).
Proof.
  intros Hid. unfold clean_filename_of. apply no_slash_app; [exact Hid|].
  simpl; intuition discriminate.
Qed.

(** [create] never stores a recording whose upload has a
    conversion extension (.webm, .mp3, .m4a, .ogg, .flac, any case): every
    call raises.  When the directories and the raw upload are written, the
    error is [subprocess.run]'s [ValueError] from [process_audio], no row
    is created, and the raw upload stays on disk. *)
Theorem create_rejects_conversion_uploads :
  forall (env : Env) (media_root recording_id contributor_id : string)
         (raw_recording_file : uploaded_file)
         (ogk_transcription eng_transcription rec_theme : option string),
    needs_conversion (uf_name raw_recording_file) = true ->
    (forall s, exists e s',
       create env media_root recording_id contributor_id raw_recording_file
              ogk_transcription eng_transcription rec_theme s = (inl e, s')) /\
    (forall s raw_file_path s1,
       save_raw env media_root recording_id raw_recording_file s = (inr raw_file_path, s1) ->
       create env media_root recording_id contributor_id raw_recording_file
              ogk_transcription eng_transcription rec_theme s
         = (inl (ValueError capture_conflict_msg), s1) /\
       s1 !! raw_file_path = Some (uf_content raw_recording_file)).
Proof.
  intros env mr rid cid f ogk eng th Hc.
  assert (Hstep : forall s p s1, save_raw env mr rid f s = (inr p, s1) ->
     create env mr rid cid f ogk eng th s = (inl (ValueError capture_conflict_msg), s1) /\
     s1 !! p = Some (uf_content f)).
  { intros s p s1 Hs. pose proof (save_raw_inr _ _ _ _ _ _ _ Hs) as [Hp Hin].
    split; [|exact Hin].
    unfold create, bindM. rewrite Hs.
    rewrite process_audio_conversion_fails; [reflexivity|].
    rewrite Hp, needs_conversion_raw_path. exact Hc. }
  split; [|exact Hstep].
  intros s. destruct (save_raw env mr rid f s) as [[e|p] s1] eqn:Hs.
  - exists e, s1. unfold create, bindM. rewrite Hs. reflexivity.
  - exists (ValueError capture_conflict_msg), s1. apply (Hstep s p s1 Hs).
Qed.

Lemma create_rejects_conversion_uploads_witness :
  needs_conversion (uf_name demo_webm_upload) = true /\
  save_raw demo_env "media" demo_id demo_webm_upload ∅
    = (inr (raw_file_path_of "media" demo_id "recording.webm"),
       snd (save_raw demo_env "media" demo_id demo_webm_upload ∅)) /\
  create demo_env "media" demo_id "c1" demo_webm_upload None None None ∅
    = (inl (ValueError capture_conflict_msg),
       snd (save_raw demo_env "media" demo_id demo_webm_upload ∅)) /\
  snd (save_raw demo_env "media" demo_id demo_webm_upload ∅)
    !! raw_file_path_of "media" demo_id "recording.webm" = Some (FData "webm").
Proof.
  assert (Hc : needs_conversion (uf_name demo_webm_upload) = true)
    by (vm_compute; reflexivity).
  assert (Hs : save_raw demo_env "media" demo_id demo_webm_upload ∅
    = (inr (raw_file_path_of "media" demo_id "recording.webm"),
       snd (save_raw demo_env "media" demo_id demo_webm_upload ∅)))
    by (vm_compute; reflexivity).
  split; [exact Hc|]. split; [exact Hs|].
  exact (proj2 (create_rejects_conversion_uploads demo_env "media" demo_id "c1"
                  demo_webm_upload None None None Hc) _ _ _ Hs).
Defined.

Lemma create_success env mr rid cid f ogk eng th s rec s' :
  create env mr rid cid f ogk eng th s = (inr rec, s') ->
  exists s1 d fr,
    save_raw env mr rid f s = (inr (raw_file_path_of mr rid (uf_name f)), s1) /\
    s1 !! raw_file_path_of mr rid (uf_name f) = Some (uf_content f) /\
    process_audio env (raw_file_path_of mr rid (uf_name f)) (clean_file_path_of mr rid)
      16000 s1 = (inr (d, fr), s') /\
    rec = {| recording_id := rid;
             contributor := cid;
             raw_rec_link := ("recordings/raw/" ++ raw_filename_of rid (uf_name f))%string;
             clean_rec_link := ("recordings/clean/" ++ clean_filename_of rid)%string;
             ogk_transcription := get_or_empty ogk;
             eng_transcription := get_or_empty eng;
             rec_theme := get_or_empty th;
             rec_duration := d |}.
Proof.
  unfold create, bindM.
  destruct (save_raw env mr rid f s) as [[e|p] s1] eqn:Hs; [discriminate|].
  destruct (save_raw_inr _ _ _ _ _ _ _ Hs) as [-> Hin].
  destruct (process_audio env _ _ 16000 s1) as [[e|[d fr]] s2] eqn:Hp; [discriminate|].
  unfold retM. intros H. injection H as <- <-.
  exists s1, d, fr. auto.
Qed.

Lemma clean_layout mr rid :
  ~ In PyStr.slash (list_ascii_of_string rid) ->
  list_ascii_of_string (clean_file_path_of mr rid)
  = list_ascii_of_string
      (if String.eqb mr "" || PyPath.ends_slash mr then mr else mr ++ "/")%string
    ++ list_ascii_of_string ("recordings/clean/" ++ clean_filename_of rid) /\
  PyPath.join mr [("recordings/clean/" ++ clean_filename_of rid)%string]
  = clean_file_path_of mr rid.
Proof.
  intros Hid.
  refine (media_path mr "clean" (clean_filename_of rid) _ eq_refl _).
  - exists (list_ascii_of_string "clea"), "n"%char. split; [reflexivity|discriminate].
  - apply filename_head; [exact Hid|reflexivity].
Qed.

Lemma raw_layout mr rid name :
  ~ In PyStr.slash (list_ascii_of_string rid) ->
  list_ascii_of_string (raw_file_path_of mr rid name)
  = list_ascii_of_string
      (if String.eqb mr "" || PyPath.ends_slash mr then mr else mr ++ "/")%string
    ++ list_ascii_of_string ("recordings/raw/" ++ raw_filename_of rid name) /\
  PyPath.join mr [("recordings/raw/" ++ raw_filename_of rid name)%string]
  = raw_file_path_of mr rid name.
Proof.
  intros Hid.
  refine (media_path mr "raw" (raw_filename_of rid name) _ eq_refl _).
  - exists (list_ascii_of_string "ra"), "w"%char. split; [reflexivity|discriminate].
  - apply filename_head; [exact Hid|reflexivity].
Qed.

Lemma meta_clean_layout mr rid :
  ~ In PyStr.slash (list_ascii_of_string rid) ->
  list_ascii_of_string (meta_path_of (clean_file_path_of mr rid))
  = list_ascii_of_string
      (if String.eqb mr "" || PyPath.ends_slash mr then mr else mr ++ "/")%string
    ++ list_ascii_of_string "recordings/c"
    ++ list_ascii_of_string ("lean/" ++ rid ++ "_clean_metadata.json").
Proof.
  intros Hid. unfold meta_path_of, PyStr.splitext.
  rewrite (proj1 (clean_layout mr rid Hid)).
  set (P := list_ascii_of_string
      (if String.eqb mr "" || PyPath.ends_slash mr then mr else mr ++ "/")%string).
  replace (P ++ list_ascii_of_string ("recordings/clean/" ++ clean_filename_of rid))
    with ((P ++ list_ascii_of_string "recordings/clean/" ++ list_ascii_of_string rid
             ++ list_ascii_of_string "_clea")
          ++ "n"%char :: PyStr.dot :: list_ascii_of_string "wav")
    by (unfold clean_filename_of; rewrite !list_ascii_of_string_app, <- !app_assoc;
        reflexivity).
  rewrite splitext_l_tail by (try discriminate; simpl; intuition discriminate).
  cbn [fst]. rewrite list_ascii_of_string_app, list_ascii_of_string_of_list_ascii.
  rewrite !list_ascii_of_string_app, <- !app_assoc. reflexivity.
Qed.

(** Once [create] has stored a recording (whose id has no [/], as
    [str(uuid4())] has not), the [audio] endpoint finds both files where
    [create] put them.  [audio/clean] serves [<id>_clean.wav] as
    [audio/wav]: a 16-bit PCM file at 16 kHz whose sample count over
    16000 is the [rec_duration] stored in the row.  [audio/raw] serves
    the uploaded content under [<id>_raw<ext>], untouched by the
    processing that followed. *)
Theorem create_then_audio :
  forall (env : Env) (media_root recording_id contributor_id : string)
         (raw_recording_file : uploaded_file)
         (ogk_transcription eng_transcription rec_theme : option string)
         (s s' : fs) (rec : recording),
    ~ In PyStr.slash (list_ascii_of_string recording_id) ->
    uf_content raw_recording_file <> FDir ->
    create env media_root recording_id contributor_id raw_recording_file
           ogk_transcription eng_transcription rec_theme s = (inr rec, s') ->
    (exists y_out,
       audio media_root rec "clean" s'
       = inr {| resp_path := clean_file_path_of media_root recording_id;
                resp_content := FAudio y_out 16000 "PCM_16";
                resp_content_type := "audio/wav";
                resp_filename := clean_filename_of recording_id |} /\
       rec_duration rec = inject_Z (Z.of_nat (length y_out)) / inject_Z 16000) /\
    exists content_type,
      audio media_root rec "raw" s'
      = inr {| resp_path := raw_file_path_of media_root recording_id (uf_name raw_recording_file);
               resp_content := uf_content raw_recording_file;
               resp_content_type := content_type;
               resp_filename := raw_filename_of recording_id (uf_name raw_recording_file) |}.
Proof.
  intros env mr rid cid f ogk eng th s s' rec Hid Hdir Hc.
  destruct (create_success _ _ _ _ _ _ _ _ _ _ _ Hc) as (s1 & d & fr & _ & Hraw & Hp & ->).
  apply process_audio_success_pipeline in Hp as [_ Hp].
  apply pipeline_success in Hp
    as (y & sr & y_out & s5 & s6 & md & _ & Hmk & -> & _ & _ & Hd & _ & Hw).
  set (clean := clean_file_path_of mr rid) in *.
  set (raw := raw_file_path_of mr rid (uf_name f)) in *.
  set (P := list_ascii_of_string
      (if String.eqb mr "" || PyPath.ends_slash mr then mr else mr ++ "/")%string).
  assert (Hrc : raw <> clean).
  { intros E. apply (f_equal list_ascii_of_string) in E.
    unfold raw, clean in E.
    rewrite (proj1 (raw_layout mr rid (uf_name f) Hid)),
            (proj1 (clean_layout mr rid Hid)) in E.
    fold P in E.
    apply (rc_differ P (list_ascii_of_string ("aw/" ++ raw_filename_of rid (uf_name f)))
                       (list_ascii_of_string ("lean/" ++ clean_filename_of rid))).
    exact E. }
  assert (Hrm : raw <> meta_path_of clean).
  { intros E. apply (f_equal list_ascii_of_string) in E.
    unfold raw, clean in E.
    rewrite (proj1 (raw_layout mr rid (uf_name f) Hid)), (meta_clean_layout mr rid Hid) in E.
    fold P in E.
    apply (rc_differ P (list_ascii_of_string ("aw/" ++ raw_filename_of rid (uf_name f)))
                       (list_ascii_of_string ("lean/" ++ rid ++ "_clean_metadata.json"))).
    exact E. }
  split.
  - exists y_out. split; [|exact Hd].
    unfold audio. cbn [clean_rec_link raw_rec_link].
    change (String.eqb "clean" "clean") with true. cbv iota.
    change (String.eqb ("recordings/clean/" ++ clean_filename_of rid) "") with false.
    cbv iota.
    rewrite (proj2 (clean_layout mr rid Hid)). fold clean.
    rewrite (write_metadata_other env _ _ _ _ _ clean
               (fun E => meta_path_of_neq clean (eq_sym E)) Hw), lookup_insert_eq.
    cbv iota.
    rewrite (endswith_of_lists _ ".wav"
               (list_ascii_of_string "recordings/clean/" ++ list_ascii_of_string rid
                ++ list_ascii_of_string "_clean"))
      by (unfold clean_filename_of; rewrite !list_ascii_of_string_app, <- !app_assoc;
          reflexivity).
    rewrite (basename_of_lists _ (clean_filename_of rid)
               (list_ascii_of_string "recordings/clean"));
      [reflexivity | reflexivity | apply clean_filename_no_slash, Hid].
  - eexists.
    unfold audio. cbn [clean_rec_link raw_rec_link].
    change (String.eqb "raw" "clean") with false. cbv iota.
    change (String.eqb ("recordings/raw/" ++ raw_filename_of rid (uf_name f)) "") with false.
    cbv iota.
    rewrite (proj2 (raw_layout mr rid (uf_name f) Hid)). fold raw.
    rewrite (write_metadata_other env _ _ _ _ _ raw Hrm Hw).
    rewrite lookup_insert_ne by (intros E; exact (Hrc (eq_sym E))).
    rewrite (os_makedirs_keeps _ _ _ _ _ _ Hmk Hraw).
    rewrite (basename_of_lists _ (raw_filename_of rid (uf_name f))
               (list_ascii_of_string "recordings/raw"));
      [|reflexivity | apply raw_filename_no_slash, Hid].
    destruct (uf_content f); [contradiction|reflexivity..].
Qed.

Lemma create_then_audio_witness :
  ~ In PyStr.slash (list_ascii_of_string demo_id) /\
  uf_content demo_upload <> FDir /\
  (exists rec s', create demo_env "media" demo_id "c1" demo_upload None None None ∅
                  = (inr rec, s') /\
   (exists y_out,
      audio "media" rec "clean" s'
      = inr {| resp_path := clean_file_path_of "media" demo_id;
               resp_content := FAudio y_out 16000 "PCM_16";
               resp_content_type := "audio/wav";
               resp_filename := clean_filename_of demo_id |} /\
      rec_duration rec = inject_Z (Z.of_nat (length y_out)) / inject_Z 16000) /\
   exists content_type,
     audio "media" rec "raw" s'
     = inr {| resp_path := raw_file_path_of "media" demo_id "clip.wav";
              resp_content := FAudio demo_samples 16000 "PCM_16";
              resp_content_type := content_type;
              resp_filename := raw_filename_of demo_id "clip.wav" |}).
Proof.
  assert (Hid : ~ In PyStr.slash (list_ascii_of_string demo_id))
    by (vm_compute; intuition discriminate).
  assert (Hdir : uf_content demo_upload <> FDir) by discriminate.
  split; [exact Hid|]. split; [exact Hdir|].
  destruct (create demo_env "media" demo_id "c1" demo_upload None None None ∅)
    as [[e|rec] s'] eqn:Hc.
  - exfalso. vm_compute in Hc. discriminate Hc.
  - exists rec, s'. split; [reflexivity|].
    exact (create_then_audio demo_env "media" demo_id "c1" demo_upload None None None
             ∅ s' rec Hid Hdir Hc).
Defined.

(** ** Peak normalization reaches its target *)

Lemma fold_left_Qmax_in r : forall acc,
  fold_left Qmax r acc = acc \/ In (fold_left Qmax r acc) r.
Proof.
  induction r as [|a r IH]; intros acc; simpl; [left; reflexivity|].
  destruct (IH (Qmax acc a)) as [H | H]; [|right; right; exact H].
  rewrite H. unfold Qmax, GenericMinMax.gmax.
  destruct (acc ?= a); [left | right; left | left]; reflexivity.
Qed.

Lemma list_max_in l : l <> [] -> In (list_max l) l.
Proof.
  destruct l as [|x r]; [congruence|]. intros _. simpl.
  destruct (fold_left_Qmax_in r x) as [-> | H]; [left; reflexivity | right; exact H].
Qed.

(** When [y] has a non-zero sample, [normalize_peak y target_peak]
    (for [target_peak >= 0]) has peak magnitude exactly [target_peak]: the
    loudest input sample is mapped to [+-target_peak]. *)
Theorem normalize_peak_reaches_target :
  forall (y : list Q) (target_peak : Q),
    0 <= target_peak -> (exists x, In x y /\ ~ x == 0) ->
    list_max (map Qabs (normalize_peak y target_peak)) == target_peak.
Proof.
  intros y tp Ht (x & Hx & Hx0).
  destruct y as [|x0 r]; [contradiction Hx|].
  set (l := x0 :: r) in *.
  set (pk := list_max (map Qabs l)).
  assert (Hge : Forall (fun z => z <= pk) (map Qabs l)) by apply list_max_ge.
  rewrite List.Forall_forall in Hge.
  assert (Hxp : 0 < pk).
  { apply (Qlt_le_trans _ (Qabs x)); [|apply Hge, in_map, Hx].
    destruct (Qlt_le_dec 0 (Qabs x)) as [H|H]; [exact H|].
    exfalso. apply Hx0. apply Qabs_Qle_condition in H as [H1 H2].
    apply Qle_antisym; [exact H2|exact H1]. }
  assert (En : normalize_peak l tp = map (fun x => x / pk * tp) l).
  { unfold normalize_peak, l. fold l. fold pk.
    destruct (Qeq_bool pk 0) eqn:E; [|reflexivity].
    apply Qeq_bool_eq in E. rewrite E in Hxp. discriminate Hxp. }
  rewrite En. apply Qle_antisym.
  - apply list_max_le; [exact Ht|].
    apply List.Forall_forall. intros z Hz.
    apply in_map_iff in Hz as (w & <- & Hw). apply in_map_iff in Hw as (v & <- & Hv).
    apply scaled_sample_bound; [exact Hxp | apply Hge, in_map, Hv | exact Ht].
  - assert (Hin : In pk (map Qabs l)) by (apply list_max_in; discriminate).
    apply in_map_iff in Hin as (xm & Hxm & Hxl).
    assert (E : Qabs (xm / pk * tp) == tp).
    { unfold Qdiv. rewrite !Qabs_Qmult, Qabs_Qinv, Hxm.
      rewrite (Qabs_pos pk) by (apply Qlt_le_weak, Hxp).
      rewrite (Qabs_pos tp) by exact Ht.
      field. intros H. rewrite H in Hxp. discriminate Hxp. }
    apply (Qle_trans _ (Qabs (xm / pk * tp))); [rewrite E; apply Qle_refl|].
    pose proof (list_max_ge (map Qabs (map (fun x => x / pk * tp) l))) as Hm.
    rewrite List.Forall_forall in Hm. apply Hm.
    apply in_map. apply (in_map (fun x => x / pk * tp)). exact Hxl.
Qed.

Lemma normalize_peak_reaches_target_witness :
  0 <= 95#100 /\ (exists x, In x demo_samples /\ ~ x == 0) /\
  list_max (map Qabs (normalize_peak demo_samples (95#100))) == 95#100.
Proof.
  assert (Ht : 0 <= 95#100) by (vm_compute; discriminate).
  assert (Hx : exists x, In x demo_samples /\ ~ x == 0)
    by (exists (1#2); split; [left; reflexivity | vm_compute; discriminate]).
  split; [exact Ht|]. split; [exact Hx|].
  exact (normalize_peak_reaches_target demo_samples (95#100) Ht Hx).
Defined.

(** ** Loading failures *)

Lemma pipeline_load_failure env i o t lp cp s e :
  lib_load env s lp = inl e -> pipeline env i o t lp cp s = (inl e, s).
Proof. intros Hl. unfold pipeline, bindM, getM, liftE. rewrite Hl. reflexivity. Qed.

(** When [librosa.load] cannot read an input that needs no
    conversion (a missing or corrupt file), [process_audio] re-raises the
    loader's error and leaves the file system as it was: no directory,
    output file or sidecar is created. *)
Theorem process_audio_load_failure :
  forall (env : Env) (s : fs) (input_path output_path : string) (target_sr : Z) (e : exc),
    needs_conversion input_path = false ->
    lib_load env s input_path = inl e ->
    process_audio env input_path output_path target_sr s = (inl e, s).
Proof.
  intros env s i o t e Hnc Hl. unfold process_audio. rewrite Hnc. cbn -[pipeline].
  unfold catchM. rewrite (pipeline_load_failure env i o t i None s e Hl).
  reflexivity.
Qed.

Lemma process_audio_load_failure_witness :
  needs_conversion "missing.wav" = false /\
  lib_load demo_env demo_fs "missing.wav" = inl (LibraryError "No such file") /\
  process_audio demo_env "missing.wav" "out/clean.wav" 16000 demo_fs
    = (inl (LibraryError "No such file"), demo_fs).
Proof.
  assert (Hnc : needs_conversion "missing.wav" = false) by (vm_compute; reflexivity).
  assert (Hl : lib_load demo_env demo_fs "missing.wav" = inl (LibraryError "No such file"))
    by (vm_compute; reflexivity).
  split; [exact Hnc|]. split; [exact Hl|].
  exact (process_audio_load_failure demo_env demo_fs "missing.wav" "out/clean.wav" 16000 _
           Hnc Hl).
Defined.
